(** * LexiBot RAG API (demo2.py): a shallow embedding and its properties

    The module demo2.py wires a FastAPI application around two LangChain
    chains.  This development embeds the four pieces of it that carry logic
    of their own:

    - [format_sources_optimized], the shaping of retrieved documents;
    - [run_preprocessing] and [run_rag_pipeline], the two worker functions;
    - [rag_query], the request handler that joins both workers;
    - [lifespan], the start-up sequence that fills the module globals.

    Python values are dynamically typed, so the embedding works over a small
    universe of values ([value]) and makes every exception explicit
    ([outcome]).  The chains, the loaders and the constructors imported from
    other modules are collaborators: they appear as fields of records
    ([Chain], [Builders]) and every statement quantifies over them. *)

From stdpp Require Import base list option strings.

Set Default Proof Using "Type".

(** ** Strings

    A Python [str] is a sequence of Unicode code points; slicing and [len]
    count code points, not bytes.  Literals of the source are written with
    [lit]. *)

Definition codepoint := N.
Definition str := list codepoint.

Definition lit (s : string) : str := Ascii.N_of_ascii <$> String.list_ascii_of_string s.
Arguments lit : simpl never.

(** ** Values

    [VDict] is an association list: a Python dict keeps insertion order, and
    a lookup returns the binding found first.  [VDocument] is a LangChain
    [Document]: textual content and a metadata mapping.  Numbers and
    booleans are left out: the module never inspects one. *)

#[warnings="-register-all"] Inductive value :=
| VNone
| VStr (s : str)
| VList (xs : list value)
| VDict (d : list (str * value))
| VDocument (page_content : str) (metadata : list (str * value)).

Definition dict := list (str * value).

(** Truth value of an object, as [not x] and [if x] see it. *)
Definition truthy (v : value) : bool :=
  match v with
  | VNone => false
  | VStr s => negb (bool_decide (s = []))
  | VList xs => negb (bool_decide (xs = []))
  | VDict d => negb (bool_decide (d = []))
  | VDocument _ _ => true
  end.

(** [type(v).__name__], as it shows in the text of an AttributeError. *)
Definition type_name (v : value) : str :=
  match v with
  | VNone => lit "NoneType"
  | VStr _ => lit "str"
  | VList _ => lit "list"
  | VDict _ => lit "dict"
  | VDocument _ _ => lit "Document"
  end.

Definition is_dict (v : value) : bool :=
  match v with VDict _ => true | _ => false end.

Definition is_str (v : value) : bool :=
  match v with VStr _ => true | _ => false end.

Fixpoint dict_lookup (d : dict) (k : str) : option value :=
  match d with
  | [] => None
  | (k', v) :: d' => if decide (k' = k) then Some v else dict_lookup d' k
  end.

(** [d.get(k, dflt)] and [d.get(k)]. *)
Definition dict_get (d : dict) (k : str) (dflt : value) : value :=
  default dflt (dict_lookup d k).

(** ** Exceptions

    [exn] lists the instances of Python's [Exception] class that the module
    can meet: whatever a collaborator raises (known by its text), the
    AttributeError of a failed attribute access, the TypeError of a loop
    over something that is not iterable, the ValidationError of a pydantic
    model, and the RuntimeError that [lifespan] raises itself. *)

Inductive exn :=
| CollaboratorError (text : str)
| AttributeError (owner attr : str)
| TypeError (text : str)
| ValidationError (fields : list str)
| RuntimeError (text : str).

Inductive outcome (A : Type) :=
| Return (a : A)
| Raise (e : exn).
Arguments Return {A} a.
Arguments Raise {A} e.

Definition is_return {A} (o : outcome A) : bool :=
  match o with Return _ => true | Raise _ => false end.

(** ** Events

    What a run leaves behind besides its result: work handed to the
    executor, the join, and log records.  A log record carries the line of
    the logging call, so that two calls with similar texts stay apart.

    The handler runs on the event loop and the two workers on pool threads.
    A list of events keeps the handler's own events in program order; a
    record that a worker logs is written at some moment between the
    submission of that worker and the join, and its place in the list says
    nothing about that moment.  Statements on events therefore use
    membership, or [handler_events], which drops the workers' records. *)

Inductive level := INFO | WARNING | ERROR.

Inductive worker_fn := RunPreprocessing | RunRagPipeline.

Inductive event :=
| Submit (fn : worker_fn) (question : str) (chat_history : list value)
| Gather
| Log (lvl : level) (line : nat) (msg : str).

Definition is_submit (ev : event) : bool :=
  match ev with Submit _ _ _ => true | _ => false end.

(** The only logging call of a worker function is the one of line 115, in
    [run_preprocessing]. *)
Definition is_worker_record (ev : event) : bool :=
  match ev with Log _ 115 _ => true | _ => false end.

(** The events of the handler's own thread, in program order. *)
Definition handler_events (evs : list event) : list event :=
  List.filter (fun ev => negb (is_worker_record ev)) evs.

(** ** Collaborators and module state *)

(** A chain is an object with an [invoke] method. *)
Record Chain := { invoke : value -> outcome value }.

(** The other shared objects are opaque handles. *)
Inductive Component := Handle (id : N).

Record Globals := {
  embeddings : option Component;
  weaviate_client : option Component;
  llm : option Component;
  reranker : option Component;
  retriever : option Component;
  qa_chain : option Chain;
  preprocessing_chain : option Chain;
  executor : option nat
}.

(** The module-level assignments: every global starts as [None]. *)
Definition initial_globals : Globals :=
  {| embeddings := None; weaviate_client := None; llm := None;
     reranker := None; retriever := None; qa_chain := None;
     preprocessing_chain := None; executor := None |}.

(** [x is not None]; for the objects held by the globals it is also the
    truth value of [x]. *)
Definition present {A} (x : option A) : bool :=
  match x with Some _ => true | None => false end.

Definition fully_initialized (g : Globals) : bool :=
  present (embeddings g) && present (weaviate_client g)
  && present (llm g) && present (reranker g) && present (retriever g)
  && present (qa_chain g) && present (preprocessing_chain g).

(** ** Request and response models *)

Record RAGQueryRequest := {
  question : str;
  chat_history : option (list value)
}.

(** [request.chat_history or []]. *)
Definition history (request : RAGQueryRequest) : list value :=
  match chat_history request with
  | Some (turn :: turns) => turn :: turns
  | _ => []
  end.

Record RAGQueryResponse := {
  classification : value;
  rewritten_question : value;
  answer : value;
  sources : value
}.

Inductive HTTPException := HTTPError (status_code : N) (detail : str).

(** What leaves the [try] block of the handler: an [HTTPException], which
    the first [except] clause lets through, or any other exception, which
    the second clause wraps. *)
Inductive raised :=
| RaisedHTTP (h : HTTPException)
| RaisedOther (e : exn).

(** ** The response assembler: [format_sources_optimized] *)

Definition NO_SOURCE : str := lit "[No source]".
Definition ELLIPSIS : str := lit "...".

(** The body of the [for] loop, for one element of [sources]. *)
Definition format_document (doc : value) : outcome value :=
  match doc with
  | VDocument content metadata =>
      let preview := take 200 content in
      let preview :=
        if Nat.ltb 200 (length content) then preview ++ ELLIPSIS else preview in
      Return (VDict [(lit "source", dict_get metadata (lit "source") (VStr NO_SOURCE));
                     (lit "preview", VStr preview)])
  | _ => Raise (AttributeError (type_name doc) (lit "page_content"))
  end.

Fixpoint format_loop (docs : list value) (formatted_sources : list value)
  : outcome (list value) :=
  match docs with
  | [] => Return formatted_sources
  | doc :: rest =>
      match format_document doc with
      | Return entry => format_loop rest (formatted_sources ++ [entry])
      | Raise e => Raise e
      end
  end.

(** What [for doc in sources] walks over.  A str yields its characters, a
    dict its keys.  A Document is a pydantic model: it yields (name, value)
    tuples, and the first of them already fails in the loop body, which is
    recorded here directly since the universe has no tuples. *)
Definition elements (sources : value) : outcome (list value) :=
  match sources with
  | VList xs => Return xs
  | VStr s => Return ((fun c => VStr [c]) <$> s)
  | VDict d => Return ((fun kv => VStr kv.1) <$> d)
  | VDocument _ _ => Raise (AttributeError (lit "tuple") (lit "page_content"))
  | VNone => Raise (TypeError (lit "'NoneType' object is not iterable"))
  end.

Definition format_sources_optimized (sources : value) : outcome value :=
  if negb (truthy sources) then Return VNone
  else
    match elements sources with
    | Raise e => Raise e
    | Return docs =>
        match format_loop docs [] with
        | Return formatted_sources => Return (VList formatted_sources)
        | Raise e => Raise e
        end
    end.

(** A retrieved document, from its content and its metadata. *)
Definition document (d : str * dict) : value := VDocument d.1 d.2.

(** ** Inputs and fallback of the two worker functions *)

Definition chain_input (question : str) (chat_history : list value) : value :=
  VDict [(lit "input", VStr question); (lit "chat_history", VList chat_history)].

(** [chain.invoke(x)] on a global that may still be [None]. *)
Definition call_invoke (chain : option Chain) (x : value) : outcome value :=
  match chain with
  | Some c => invoke c x
  | None => Raise (AttributeError (lit "NoneType") (lit "invoke"))
  end.

Definition fallback (question : str) : value :=
  VDict [(lit "classification", VStr (lit "unknown"));
         (lit "rewritten_question", VStr question)].


(** ** Start-up: [lifespan] up to its [yield] *)

(** The loaders and constructors that [lifespan] calls.  A loader is a plain
    function: it may raise, and it may return [None] (or another empty
    object, all of which [not x] treats alike).  [AdvancedLawRetriever(...)]
    is a class instantiation and [prompt | llm | parser] an operator
    expression: each returns an object or raises. *)
Record Builders := {
  get_huggingface_embeddings : outcome (option Component);
  connect_to_weaviate : outcome (option Component);
  GOOGLE_API_KEY : option str;
  has_get_google_llm : bool;
  get_google_llm : str -> outcome (option Component);
  get_reranker_compressor : outcome (option Component);
  AdvancedLawRetriever :
    option Component -> option Component -> option Component -> option Component ->
    outcome Component;
  create_qa_chain : option Component -> option Component -> option Component ->
                    outcome (option Chain);
  compose_preprocessing_chain : option Component -> outcome Chain
}.

Definition set_executor (x : option nat) (g : Globals) : Globals :=
  {| embeddings := embeddings g; weaviate_client := weaviate_client g; llm := llm g;
     reranker := reranker g; retriever := retriever g; qa_chain := qa_chain g;
     preprocessing_chain := preprocessing_chain g; executor := x |}.
Definition set_embeddings (x : option Component) (g : Globals) : Globals :=
  {| embeddings := x; weaviate_client := weaviate_client g; llm := llm g;
     reranker := reranker g; retriever := retriever g; qa_chain := qa_chain g;
     preprocessing_chain := preprocessing_chain g; executor := executor g |}.
Definition set_weaviate_client (x : option Component) (g : Globals) : Globals :=
  {| embeddings := embeddings g; weaviate_client := x; llm := llm g;
     reranker := reranker g; retriever := retriever g; qa_chain := qa_chain g;
     preprocessing_chain := preprocessing_chain g; executor := executor g |}.
Definition set_llm (x : option Component) (g : Globals) : Globals :=
  {| embeddings := embeddings g; weaviate_client := weaviate_client g; llm := x;
     reranker := reranker g; retriever := retriever g; qa_chain := qa_chain g;
     preprocessing_chain := preprocessing_chain g; executor := executor g |}.
Definition set_reranker (x : option Component) (g : Globals) : Globals :=
  {| embeddings := embeddings g; weaviate_client := weaviate_client g; llm := llm g;
     reranker := x; retriever := retriever g; qa_chain := qa_chain g;
     preprocessing_chain := preprocessing_chain g; executor := executor g |}.
Definition set_retriever (x : option Component) (g : Globals) : Globals :=
  {| embeddings := embeddings g; weaviate_client := weaviate_client g; llm := llm g;
     reranker := reranker g; retriever := x; qa_chain := qa_chain g;
     preprocessing_chain := preprocessing_chain g; executor := executor g |}.
Definition set_qa_chain (x : option Chain) (g : Globals) : Globals :=
  {| embeddings := embeddings g; weaviate_client := weaviate_client g; llm := llm g;
     reranker := reranker g; retriever := retriever g; qa_chain := x;
     preprocessing_chain := preprocessing_chain g; executor := executor g |}.
Definition set_preprocessing_chain (x : option Chain) (g : Globals) : Globals :=
  {| embeddings := embeddings g; weaviate_client := weaviate_client g; llm := llm g;
     reranker := reranker g; retriever := retriever g; qa_chain := qa_chain g;
     preprocessing_chain := x; executor := executor g |}.

(** The seven build steps, in the order of the source. *)
Inductive build_step :=
| StepEmbeddings | StepWeaviate | StepLLM | StepReranker
| StepRetriever | StepQAChain | StepPreprocessingChain.

#[global] Instance build_step_eq_dec : EqDecision build_step.
Proof. solve_decision. Defined.

Definition build_order : list build_step :=
  [StepEmbeddings; StepWeaviate; StepLLM; StepReranker;
   StepRetriever; StepQAChain; StepPreprocessingChain].

(** The [logger.info] call that opens each step. *)
Definition log_line (s : build_step) : event :=
  match s with
  | StepEmbeddings => Log INFO 42 (lit "Loading embedding model...")
  | StepWeaviate => Log INFO 47 (lit "Connecting to Weaviate...")
  | StepLLM => Log INFO 52 (lit "Loading LLM...")
  | StepReranker => Log INFO 59 (lit "Loading reranker...")
  | StepRetriever => Log INFO 64 (lit "Setting up retriever...")
  | StepQAChain => Log INFO 73 (lit "Building RAG chain...")
  | StepPreprocessingChain => Log INFO 80 (lit "Building preprocessing chain...")
  end.

Definition assign {A} (built : outcome A) (set : A -> Globals -> Globals) (g : Globals)
  : outcome Globals :=
  match built with
  | Return x => Return (set x g)
  | Raise e => Raise e
  end.

(** [if google_api_key]: the variable is set and not the empty string. *)
Definition key_set (k : option str) : bool :=
  match k with Some (_ :: _) => true | _ => false end.

(** The call of a step and the assignment of its result to the global.  The
    LLM step calls its loader only behind the [hasattr ... and
    google_api_key] test and otherwise leaves [llm] as it is. *)
Definition call_builder (b : Builders) (s : build_step) (g : Globals) : outcome Globals :=
  match s with
  | StepEmbeddings => assign (get_huggingface_embeddings b) set_embeddings g
  | StepWeaviate => assign (connect_to_weaviate b) set_weaviate_client g
  | StepLLM =>
      if has_get_google_llm b && key_set (GOOGLE_API_KEY b)
      then assign (get_google_llm b (default [] (GOOGLE_API_KEY b))) set_llm g
      else Return g
  | StepReranker => assign (get_reranker_compressor b) set_reranker g
  | StepRetriever =>
      assign (AdvancedLawRetriever b (weaviate_client g) (llm g) (reranker g) (embeddings g))
        (fun r => set_retriever (Some r)) g
  | StepQAChain => assign (create_qa_chain b (llm g) (retriever g) (llm g)) set_qa_chain g
  | StepPreprocessingChain =>
      assign (compose_preprocessing_chain b (llm g))
        (fun c => set_preprocessing_chain (Some c)) g
  end.

(** The text of the [if not x: raise RuntimeError(...)] that follows a step;
    [None] for the three steps that the source does not check. *)
Definition null_check (s : build_step) : option string :=
  match s with
  | StepEmbeddings => Some "Failed to load embedding model."%string
  | StepWeaviate => Some "Failed to connect to Weaviate."%string
  | StepLLM => Some "Failed to load LLM. Please set GOOGLE_API_KEY."%string
  | StepReranker => Some "Failed to load reranker."%string
  | StepRetriever | StepQAChain | StepPreprocessingChain => None
  end.

(** Whether the global that a step assigns holds an object. *)
Definition assigned (s : build_step) (g : Globals) : bool :=
  match s with
  | StepEmbeddings => present (embeddings g)
  | StepWeaviate => present (weaviate_client g)
  | StepLLM => present (llm g)
  | StepReranker => present (reranker g)
  | StepRetriever => present (retriever g)
  | StepQAChain => present (qa_chain g)
  | StepPreprocessingChain => present (preprocessing_chain g)
  end.

(** One step: the globals it leaves, and the exception that ends the
    start-up there, if any. *)
Definition run_step (b : Builders) (s : build_step) (g : Globals) : Globals * option exn :=
  match call_builder b s g with
  | Raise e => (g, Some e)
  | Return g' =>
      (g', match null_check s with
           | Some msg => if assigned s g' then None else Some (RuntimeError (lit msg))
           | None => None
           end)
  end.

(** The run of a list of steps from [g]: the log, the globals after each
    step that was started (oldest first), the step that failed with its
    exception, if any, and the globals at the end. *)
Record startup := {
  startup_log : list event;
  visited : list Globals;
  failure : option (build_step * exn);
  final : Globals
}.

Fixpoint run_steps (b : Builders) (steps : list build_step) (g : Globals) : startup :=
  match steps with
  | [] => {| startup_log := []; visited := []; failure := None; final := g |}
  | s :: rest =>
      match run_step b s g with
      | (g', Some e) =>
          {| startup_log := [log_line s]; visited := [g'];
             failure := Some (s, e); final := g' |}
      | (g', None) =>
          let r := run_steps b rest g' in
          {| startup_log := log_line s :: startup_log r; visited := g' :: visited r;
             failure := failure r; final := final r |}
      end
  end.

Definition serving (r : startup) : bool :=
  match failure r with None => true | Some _ => false end.

(** [lifespan] from its first line to the [yield]: the executor is created,
    then the steps run.  The [yield] is reached, and the application serves
    requests, exactly when no step failed. *)
Definition lifespan (b : Builders) : startup :=
  let g := set_executor (Some 4) initial_globals in
  let r := run_steps b build_order g in
  {| startup_log :=
       Log INFO 39 (lit "Starting RAG API initialization...") :: startup_log r
       ++ (if serving r
           then [Log INFO 85 (lit "RAG API initialization completed successfully!")]
           else []);
     visited := initial_globals :: g :: visited r;
     failure := failure r; final := final r |}.

(** ** The whole context manager: [lifespan] with its shutdown half *)

(** What [lifespan] does besides logging: it creates the thread pool, hands
    control to the application at the [yield], and shuts the pool down. *)
Inductive action :=
| Recorded (ev : event)
| CreateExecutor (max_workers : nat)
| Yield
| ShutdownExecutor (wait : bool).

(** Lines 88-92, entered when the application stops. *)
Definition lifespan_shutdown (g : Globals) : list action :=
  [Recorded (Log INFO 89 (lit "Shutting down executor..."))]
  ++ (if present (executor g) then [ShutdownExecutor true] else [])
  ++ [Recorded (Log INFO 92 (lit "Shutdown complete."))].

(** Lines 36-92 in the order of execution.  The generator has no [try]
    around its body: when a step raises, nothing after it runs, the
    shutdown half included.  What the application does between the [yield]
    and the shutdown is not listed; it never assigns [executor]. *)
Definition lifespan_actions (b : Builders) : list action :=
  let g := set_executor (Some 4) initial_globals in
  let r := run_steps b build_order g in
  Recorded (Log INFO 39 (lit "Starting RAG API initialization..."))
  :: CreateExecutor 4
  :: (Recorded <$> startup_log r)
  ++ (if serving r
      then Recorded (Log INFO 85 (lit "RAG API initialization completed successfully!"))
           :: Yield :: lifespan_shutdown (final r)
      else []).

(** ** The health probe: [health_check] *)





(** ** Shapes of collaborator results *)

Definition is_document (v : value) : bool :=
  match v with VDocument _ _ => true | _ => false end.

(** A result of the answer chain that the handler can turn into a response:
    any value that is not a dict (free text), or a dict whose "answer", when
    present, is a str and whose "context", when present, is empty or a list
    of Documents. *)
Definition is_context (context : value) : bool :=
  match context with
  | VList docs => forallb is_document docs
  | _ => negb (truthy context)
  end.

Definition is_answer_result (v : value) : bool :=
  match v with
  | VDict d =>
      is_str (dict_get d (lit "answer") (VStr []))
      && is_context (dict_get d (lit "context") VNone)
  | _ => true
  end.

(** A result of the preprocessing chain that the handler can read: a dict
    whose "classification" and "rewritten_question", when present, are
    strs. *)
Definition is_preprocessing_result (v : value) : bool :=
  match v with
  | VDict d =>
      is_str (dict_get d (lit "classification") (VStr []))
      && is_str (dict_get d (lit "rewritten_question") (VStr []))
  | _ => false
  end.

(** An entry as the response assembler builds it: the two keys, and a
    preview of at most 203 characters. *)
Definition is_source_entry (entry : value) : Prop :=
  exists source preview,
    entry = VDict [(lit "source", source); (lit "preview", VStr preview)]
    /\ length preview <= 203.

(** [needle in hay] for strs. *)
Fixpoint occurs_in (needle hay : str) : bool :=
  bool_decide (needle `prefix_of` hay)
  || match hay with
     | [] => false
     | _ :: hay' => occurs_in needle hay'
     end.

(** ** Sample inputs *)

Module Sample.

Definition repr (v : value) : str := lit "<repr>".
Definition validation (fields : list str) : str := lit "<validation error>".

Definition request : RAGQueryRequest :=
  {| question := lit "What is the speed limit?"; chat_history := Some [] |}.

Definition input : value := chain_input (question request) (history request).

Definition long_content : str := replicate 210 97%N.
Definition exact_content : str := replicate 200 98%N.

Definition docs : list (str * dict) :=
  [(long_content, [(lit "source", VStr (lit "doc1"))]); (exact_content, [])].

Definition chain (o : outcome value) : Chain := {| invoke := fun _ => o |}.

Definition classified : value :=
  VDict [(lit "classification", VStr (lit "traffic_law"));
         (lit "rewritten_question", VStr (lit "What is the speed limit for urban roads?"))].

Definition answered : value :=
  VDict [(lit "answer", VStr (lit "50 km/h"));
         (lit "context", VList [VDocument long_content [(lit "source", VStr (lit "doc1"))]])].

Definition boom : exn := CollaboratorError (lit "boom").

(** What the handler returns for [classified] and [answered]. *)
Definition response : RAGQueryResponse :=
  {| classification := VStr (lit "traffic_law");
     rewritten_question := VStr (lit "What is the speed limit for urban roads?");
     answer := VStr (lit "50 km/h");
     sources := VList [VDict [(lit "source", VStr (lit "doc1"));
                              (lit "preview", VStr (take 200 long_content ++ lit "..."))]] |}.

(** Module state with the two chains in place. *)
Definition globals (pre qa : outcome value) : Globals :=
  {| embeddings := Some (Handle 1); weaviate_client := Some (Handle 2);
     llm := Some (Handle 3); reranker := Some (Handle 4); retriever := Some (Handle 5);
     qa_chain := Some (chain qa); preprocessing_chain := Some (chain pre);
     executor := Some 4 |}.

(** Builders that all succeed, except that [create_qa_chain] returns what it
    is given here. *)
Definition builders (qa : outcome (option Chain)) : Builders :=
  {| get_huggingface_embeddings := Return (Some (Handle 1));
     connect_to_weaviate := Return (Some (Handle 2));
     GOOGLE_API_KEY := Some (lit "key");
     has_get_google_llm := true;
     get_google_llm := fun _ => Return (Some (Handle 3));
     get_reranker_compressor := Return (Some (Handle 4));
     AdvancedLawRetriever := fun _ _ _ _ => Return (Handle 5);
     create_qa_chain := fun _ _ _ => qa;
     compose_preprocessing_chain := fun _ => Return (chain (Return classified)) |}.

(** The same, with no API key in the environment. *)
Definition builders_without_key : Builders :=
  {| get_huggingface_embeddings := Return (Some (Handle 1));
     connect_to_weaviate := Return (Some (Handle 2));
     GOOGLE_API_KEY := None;
     has_get_google_llm := true;
     get_google_llm := fun _ => Return (Some (Handle 3));
     get_reranker_compressor := Return (Some (Handle 4));
     AdvancedLawRetriever := fun _ _ _ _ => Return (Handle 5);
     create_qa_chain := fun _ _ _ => Return (Some (chain (Return answered)));
     compose_preprocessing_chain := fun _ => Return (chain (Return classified)) |}.

End Sample.

(** ** The handler, over an arbitrary run time *)

Section Interpreter.

(** Two texts that the Python run time and pydantic produce and that the
    development leaves open: [repr] of a value that is not a str, and the
    text of a ValidationError. *)
Variable py_repr : value -> str.
Variable validation_text : list str -> str.

Definition py_str (v : value) : str :=
  match v with
  | VStr s => s
  | VNone => lit "None"
  | _ => py_repr v
  end.

(** [str(e)], as the f-strings of the module use it. *)
Definition exn_text (e : exn) : str :=
  match e with
  | CollaboratorError text => text
  | AttributeError owner attr =>
      lit "'" ++ owner ++ lit "' object has no attribute '" ++ attr ++ lit "'"
  | TypeError text => text
  | ValidationError fields => validation_text fields
  | RuntimeError text => text
  end.

Definition run_preprocessing (g : Globals) (question : str) (chat_history : list value)
  : list event * outcome value :=
  match call_invoke (preprocessing_chain g) (chain_input question chat_history) with
  | Return v => ([], Return v)
  | Raise e =>
      ([Log WARNING 115
          (lit "Preprocessing failed: " ++ exn_text e ++ lit ", using fallback")],
       Return (fallback question))
  end.

Definition run_rag_pipeline (g : Globals) (question : str) (chat_history : list value)
  : list event * outcome value :=
  let input_data := chain_input question chat_history in
  ([], call_invoke (qa_chain g) input_data).

(** ** The request handler: [rag_query] *)

(** Computations of the [try] block: the events so far, and either what was
    raised or a value. *)
Definition Body (A : Type) : Type := list event * (raised + A).

Definition ret {A} (a : A) : Body A := ([], inr a).
Definition throw {A} (r : raised) : Body A := ([], inl r).
Definition emit (evs : list event) : Body unit := (evs, inr tt).
Definition lift {A} (o : outcome A) : Body A :=
  match o with
  | Return a => ret a
  | Raise e => throw (RaisedOther e)
  end.
Definition bind {A B} (m : Body A) (k : A -> Body B) : Body B :=
  match m with
  | (evs, inl r) => (evs, inl r)
  | (evs, inr a) => let '(evs', r) := k a in (evs ++ evs', r)
  end.

Notation "'do' x <- m ; k" := (bind m (fun x => k))
  (at level 10, x pattern, m at level 100, k at level 200, only parsing).

(** The pydantic constructor of [RAGQueryResponse]: three required str
    fields and [sources: Optional[List[Any]]].  Over [value] a field passes
    validation exactly when it has the declared type. *)
Definition new_RAGQueryResponse (classification rewritten_question answer sources : value)
  : outcome RAGQueryResponse :=
  let invalid :=
    (if is_str classification then [] else [lit "classification"])
    ++ (if is_str rewritten_question then [] else [lit "rewritten_question"])
    ++ (if is_str answer then [] else [lit "answer"])
    ++ (match sources with VNone | VList _ => [] | _ => [lit "sources"] end) in
  match invalid with
  | [] => Return {| classification := classification;
                    rewritten_question := rewritten_question;
                    answer := answer; sources := sources |}
  | _ => Raise (ValidationError invalid)
  end.

(** Lines 167-173: the first of the two results of [gather]. *)
Definition read_preprocessing (request : RAGQueryRequest) (preprocessing_result : outcome value)
  : Body (value * value) :=
  match preprocessing_result with
  | Raise e =>
      do _ <- emit [Log WARNING 168 (lit "Preprocessing failed: " ++ exn_text e)];
      ret (VStr (lit "unknown"), VStr (question request))
  | Return (VDict d) =>
      ret (dict_get d (lit "classification") (VStr (lit "unknown")),
           dict_get d (lit "rewritten_question") (VStr (question request)))
  | Return v => throw (RaisedOther (AttributeError (type_name v) (lit "get")))
  end.

(** Lines 175-183: the second result of [gather]. *)
Definition read_rag (rag_result : outcome value) : Body (value * value) :=
  match rag_result with
  | Raise e =>
      throw (RaisedHTTP (HTTPError 500 (lit "RAG pipeline failed: " ++ exn_text e)))
  | Return (VDict d) =>
      ret (dict_get d (lit "answer") (VStr (py_str (VDict d))),
           dict_get d (lit "context") VNone)
  | Return v => ret (VStr (py_str v), VNone)
  end.

(** Lines 167-192: everything after the join. *)
Definition merge_results (request : RAGQueryRequest)
    (preprocessing_result rag_result : outcome value) : Body RAGQueryResponse :=
  do (classification, rewritten_question) <- read_preprocessing request preprocessing_result;
  do (answer, sources) <- read_rag rag_result;
  do formatted_sources <- lift (format_sources_optimized sources);
  lift (new_RAGQueryResponse classification rewritten_question answer formatted_sources).

(** Lines 153-192: the [try] block.  Both workers are handed to the executor
    before the join.  The records that the workers log are listed just
    before the join, by which time they have been written; where they fall
    among the handler's events before it is not fixed by the program (see the
    note on events). *)
Definition rag_query_body (g : Globals) (request : RAGQueryRequest) : Body RAGQueryResponse :=
  let chat_history := history request in
  do _ <- emit [Submit RunPreprocessing (question request) chat_history];
  let preprocessing_future := run_preprocessing g (question request) chat_history in
  do _ <- emit [Submit RunRagPipeline (question request) chat_history];
  let rag_future := run_rag_pipeline g (question request) chat_history in
  do _ <- emit (preprocessing_future.1 ++ rag_future.1 ++ [Gather]);
  merge_results request preprocessing_future.2 rag_future.2.

(** Lines 194-198: the two [except] clauses. *)
Definition except_clauses {A} (body : Body A) : list event * (HTTPException + A) :=
  match body with
  | (evs, inr a) => (evs, inr a)
  | (evs, inl (RaisedHTTP h)) => (evs, inl h)
  | (evs, inl (RaisedOther e)) =>
      (evs ++ [Log ERROR 197 (lit "Unexpected error in RAG pipeline: " ++ exn_text e)],
       inl (HTTPError 500 (lit "Error during RAG pipeline: " ++ exn_text e)))
  end.

Definition rag_query (g : Globals) (request : RAGQueryRequest)
  : list event * (HTTPException + RAGQueryResponse) :=
  if negb (present (qa_chain g)) || negb (present (preprocessing_chain g)) then
    ([], inl (HTTPError 500 (lit "RAG pipeline not initialized.")))
  else except_clauses (rag_query_body g request).


(** ** The warm-up route: [warmup] *)

(** [str(e)] for an [HTTPException]; it depends on the Starlette release and
    is left open. *)
Variable http_text : HTTPException -> str.

(** The literal of line 217, by code points (it is not ASCII). *)
Definition test_query : str :=
  [76; 117; 7853; 116; 32; 103; 105; 97; 111; 32; 116; 104; 244; 110; 103]%N.

Definition test_request : RAGQueryRequest :=
  {| question := test_query; chat_history := Some [] |}.

(** [await rag_query(test_request)] inside [try ... except Exception]: the
    response is dropped, and whatever the handler raises becomes a warning. *)
Definition warmup (g : Globals) : list event * value :=
  match rag_query g test_request with
  | (evs, inr _) => (evs, VDict [(lit "status", VStr (lit "warmed up successfully"))])
  | (evs, inl h) =>
      (evs ++ [Log WARNING 222 (lit "Warmup failed: " ++ http_text h)],
       VDict [(lit "status", VStr (lit "warmup completed with warnings"));
              (lit "warning", VStr (http_text h))])
  end.

(** * Properties *)

(** ** The response assembler *)

Lemma format_loop_documents (docs : list (str * dict)) (acc : list value) :
  exists out : list value,
    format_loop (document <$> docs) acc = Return (acc ++ out)
    /\ length out = length docs
    /\ forall i content metadata,
         docs !! i = Some (content, metadata) ->
         out !! i = Some (VDict
           [(lit "source", dict_get metadata (lit "source") (VStr NO_SOURCE));
            (lit "preview",
             VStr (take 200 content
                   ++ if Nat.ltb 200 (length content) then ELLIPSIS else []))]).
Proof.
  revert acc. induction docs as [|[content metadata] docs IH]; intros acc.
  - exists []. rewrite app_nil_r. split; [done|]. split; [done|].
    intros i c m H. by rewrite lookup_nil in H.
  - cbn [fmap list_fmap format_loop document format_document fst snd].
    match goal with |- context [format_loop _ (acc ++ [?entry])] =>
      destruct (IH (acc ++ [entry])) as (out & Hrun & Hlen & Hnth);
      exists (entry :: out)
    end.
    split; [|split].
    + rewrite Hrun. by rewrite <- app_assoc.
    + cbn. by rewrite Hlen.
    + intros [|i] c m H; cbn in H.
      * injection H as -> ->.
        destruct (Nat.ltb 200 (length c)); [reflexivity|].
        by rewrite app_nil_r.
      * cbn. by apply Hnth.
Qed.

Lemma ELLIPSIS_nonempty : ELLIPSIS <> [].
Proof. discriminate. Qed.

(** C3. For a non-empty list of retrieved documents, [format_sources_optimized]
    returns one entry per document, in the order of the input.  The preview
    of an entry is the first 200 characters of the content followed by a
    marker, and the marker is "..." exactly when the content is longer than
    200 characters and empty otherwise (so content of length 200 gets none).
    The source of an entry is the metadata value under "source", or the
    sentinel "[No source]" when the metadata has no such key. *)
Theorem format_sources_previews (docs : list (str * dict)) :
  docs <> [] ->
  exists out : list value,
    format_sources_optimized (VList (document <$> docs)) = Return (VList out)
    /\ length out = length docs
    /\ forall i content metadata,
         docs !! i = Some (content, metadata) ->
         exists source marker,
           out !! i = Some (VDict [(lit "source", source);
                                   (lit "preview", VStr (take 200 content ++ marker))])
           /\ (marker = ELLIPSIS <-> 200 < length content)
           /\ (marker = [] <-> length content <= 200)
           /\ (forall v, dict_lookup metadata (lit "source") = Some v -> source = v)
           /\ (dict_lookup metadata (lit "source") = None -> source = VStr NO_SOURCE).
Proof.
  intros Hne.
  destruct (format_loop_documents docs []) as (out & Hrun & Hlen & Hnth).
  exists out. split; [|split; [exact Hlen|]].
  - unfold format_sources_optimized.
    destruct docs as [|d docs]; [done|].
    change (truthy (VList (document <$> d :: docs))) with true.
    cbn [negb elements]. by rewrite Hrun.
  - intros i content metadata Hi.
    exists (dict_get metadata (lit "source") (VStr NO_SOURCE)),
           (if Nat.ltb 200 (length content) then ELLIPSIS else []).
    split; [by apply Hnth|].
    unfold dict_get.
    pose proof ELLIPSIS_nonempty as Hmark.
    destruct (Nat.ltb_spec 200 (length content)) as [Hlong|Hshort];
      repeat split; intros; simplify_eq; try done; try lia;
      by match goal with H : dict_lookup _ _ = _ |- _ => rewrite H end.
Qed.

Lemma format_sources_previews_witness :
  Sample.docs <> []
  /\ exists out : list value,
       format_sources_optimized (VList (document <$> Sample.docs)) = Return (VList out)
       /\ length out = 2.
Proof.
  assert (Hne : Sample.docs <> []) by discriminate.
  split; [exact Hne|].
  destruct (format_sources_previews Sample.docs Hne) as (out & Hrun & Hlen & _).
  exists out. split; [exact Hrun|exact Hlen].
Defined.

Lemma format_loop_length (docs acc out : list value) :
  format_loop docs acc = Return out -> length out = length acc + length docs.
Proof.
  revert acc. induction docs as [|doc docs IH]; intros acc; cbn [format_loop].
  - intros [= <-]. cbn. lia.
  - destruct (format_document doc) as [entry|e]; [|discriminate].
    intros H. apply IH in H. rewrite H, length_app. cbn. lia.
Qed.

(** C4. For absent sources ([None]) and for an empty list,
    [format_sources_optimized] returns [None]; and there is no input
    whatsoever for which it returns an empty list. *)
Theorem format_sources_absent :
  format_sources_optimized VNone = Return VNone
  /\ format_sources_optimized (VList []) = Return VNone
  /\ forall sources, format_sources_optimized sources <> Return (VList []).
Proof.
  split; [reflexivity|]. split; [reflexivity|].
  intros sources. unfold format_sources_optimized.
  destruct (truthy sources) eqn:Htruthy; cbn [negb]; [|discriminate].
  destruct (elements sources) as [docs|e] eqn:Hdocs; [|discriminate].
  destruct (format_loop docs []) as [out|e] eqn:Hrun; [|discriminate].
  apply format_loop_length in Hrun. cbn in Hrun.
  intros [= ->]. cbn in Hrun.
  destruct docs as [|doc docs]; [|discriminate].
  destruct sources as [|s|xs|d|c m]; cbn in Hdocs, Htruthy; try discriminate.
  - destruct s; [done|discriminate].
  - injection Hdocs as ->. done.
  - destruct d; [done|discriminate].
Qed.

(** ** The handler *)

Lemma bind_snd {A B} (m : Body A) (k : A -> Body B) :
  (bind m k).2 = match m.2 with inl r => inl r | inr a => (k a).2 end.
Proof. destruct m as [evs [r|a]]; cbn; [done|]. by destruct (k a). Qed.

Lemma bind_fst {A B} (m : Body A) (k : A -> Body B) :
  (bind m k).1 = m.1 ++ match m.2 with inl r => [] | inr a => (k a).1 end.
Proof.
  destruct m as [evs [r|a]]; cbn; [by rewrite app_nil_r|]. by destruct (k a).
Qed.

Lemma lift_snd {A} (o : outcome A) :
  (lift o).2 = match o with Return a => inr a | Raise e => inl (RaisedOther e) end.
Proof. by destruct o. Qed.

Lemma lift_fst {A} (o : outcome A) : (lift o).1 = [].
Proof. by destruct o. Qed.

Lemma except_clauses_snd {A} (body : Body A) :
  (except_clauses body).2 =
  match body.2 with
  | inr a => inr a
  | inl (RaisedHTTP h) => inl h
  | inl (RaisedOther e) =>
      inl (HTTPError 500 (lit "Error during RAG pipeline: " ++ exn_text e))
  end.
Proof. by destruct body as [evs [[h|e]|a]]. Qed.

(** The result of the handler once both chains are in place. *)
Lemma rag_query_result g request pre qa :
  preprocessing_chain g = Some pre -> qa_chain g = Some qa ->
  (rag_query g request).2 =
  (except_clauses
     (merge_results request
        (run_preprocessing g (question request) (history request)).2
        (invoke qa (chain_input (question request) (history request))))).2.
Proof.
  intros Hpre Hqa. unfold rag_query, rag_query_body, run_rag_pipeline.
  rewrite Hpre, Hqa. cbn [present negb orb call_invoke fst snd].
  rewrite !except_clauses_snd, !bind_snd. done.
Qed.

Lemma run_preprocessing_result g question h :
  (run_preprocessing g question h).2 =
  match call_invoke (preprocessing_chain g) (chain_input question h) with
  | Return v => Return v
  | Raise e => Return (fallback question)
  end.
Proof. unfold run_preprocessing. by destruct (call_invoke _ _). Qed.

Lemma literal_keys_differ : lit "classification" <> lit "rewritten_question".
Proof. intros H. vm_compute in H. discriminate. Qed.

Lemma read_fallback request :
  read_preprocessing request (Return (fallback (question request)))
  = ret (VStr (lit "unknown"), VStr (question request)).
Proof.
  unfold read_preprocessing, fallback, dict_get. cbn [dict_lookup].
  rewrite decide_True by done.
  rewrite decide_False by apply literal_keys_differ.
  by rewrite decide_True by done.
Qed.

(** What the tail of [merge_results] returns, by cases. *)
Lemma merge_results_snd request a b :
  (merge_results request a b).2 =
  match (read_preprocessing request a).2 with
  | inl r => inl r
  | inr (c, r) =>
      match (read_rag b).2 with
      | inl x => inl x
      | inr (ans, context) =>
          match format_sources_optimized context with
          | Raise e => inl (RaisedOther e)
          | Return s =>
              match new_RAGQueryResponse c r ans s with
              | Raise e => inl (RaisedOther e)
              | Return response => inr response
              end
          end
      end
  end.
Proof.
  unfold merge_results. rewrite bind_snd.
  destruct (read_preprocessing request a).2 as [x|[c r]]; [done|].
  rewrite bind_snd. destruct (read_rag b).2 as [x|[ans context]]; [done|].
  rewrite bind_snd, lift_snd.
  destruct (format_sources_optimized context) as [s|e]; [|done].
  by rewrite lift_snd.
Qed.

Lemma new_RAGQueryResponse_inv c r a s response :
  new_RAGQueryResponse c r a s = Return response ->
  response = {| classification := c; rewritten_question := r;
                answer := a; sources := s |}
  /\ is_str c = true /\ is_str r = true /\ is_str a = true.
Proof.
  unfold new_RAGQueryResponse.
  destruct (is_str c), (is_str r), (is_str a); cbn; try discriminate.
  destruct s; cbn; try discriminate; by intros [= <-].
Qed.

Lemma new_RAGQueryResponse_valid c r a s :
  is_str c = true -> is_str r = true -> is_str a = true ->
  (s = VNone \/ exists docs, s = VList docs) ->
  new_RAGQueryResponse c r a s
  = Return {| classification := c; rewritten_question := r;
              answer := a; sources := s |}.
Proof.
  unfold new_RAGQueryResponse. intros -> -> -> [->|[docs ->]]; done.
Qed.

Lemma format_sources_shape sources s :
  format_sources_optimized sources = Return s ->
  s = VNone \/ exists docs, s = VList docs.
Proof.
  unfold format_sources_optimized. destruct (negb (truthy sources)).
  - intros [= <-]. by left.
  - destruct (elements sources) as [docs|e]; [|discriminate].
    destruct (format_loop docs []) as [out|e]; [|discriminate].
    intros [= <-]. right. by exists out.
Qed.

Lemma format_loop_all_documents docs acc :
  forallb is_document docs = true -> exists out, format_loop docs acc = Return out.
Proof.
  revert acc. induction docs as [|doc docs IH]; intros acc Hdocs; cbn [format_loop].
  - by exists acc.
  - cbn in Hdocs. apply andb_prop in Hdocs as [Hdoc Hdocs].
    destruct doc; try discriminate. cbn [format_document]. by apply IH.
Qed.


Lemma is_str_dict_get d k x y :
  is_str (dict_get d k (VStr x)) = is_str (dict_get d k (VStr y)).
Proof. unfold dict_get. by destruct (dict_lookup d k). Qed.

Lemma format_sources_context context :
  is_context context = true ->
  exists s, format_sources_optimized context = Return s.
Proof.
  unfold format_sources_optimized, is_context.
  destruct context as [|s|docs|d|c m]; cbn [negb truthy elements];
    try (intros ->; by eexists); try discriminate; [by eexists|].
  intros Hdocs. destruct (negb (bool_decide (docs = []))); [|by eexists].
  destruct (format_loop_all_documents docs [] Hdocs) as [out ->]. by eexists.
Qed.

(** An answer result of the expected shape always assembles. *)
Lemma read_rag_answer_result v :
  is_answer_result v = true ->
  exists a context s,
    (read_rag (Return v)).2 = inr (a, context)
    /\ is_str a = true
    /\ format_sources_optimized context = Return s.
Proof.
  intros Hv. destruct v as [|t|xs|d|c m];
    try (eexists _, VNone, VNone; by repeat split).
  cbn [is_answer_result] in Hv. apply andb_prop in Hv as [Hanswer Hcontext].
  destruct (format_sources_context _ Hcontext) as [s Hs].
  eexists _, _, s. split; [reflexivity|]. split; [|exact Hs].
  by rewrite (is_str_dict_get _ _ _ []).
Qed.

(** C1. When the preprocessing chain raises and the answer chain succeeds,
    that is, returns an answer result ([is_answer_result]: free text, or a
    record with a textual answer and a context of documents), the handler
    returns a complete response whose classification is "unknown" and whose
    rewritten question is the original question.  Those two fields have
    these values in any response returned, whatever the answer chain
    returned.  The failure reaches the caller in no way: the result is the
    one of a run in which preprocessing had returned the fallback record, and
    the failure only leaves the warning that [run_preprocessing] logs. *)
Theorem preprocessing_failure_masked g request pre qa e v :
  preprocessing_chain g = Some pre -> qa_chain g = Some qa ->
  invoke pre (chain_input (question request) (history request)) = Raise e ->
  invoke qa (chain_input (question request) (history request)) = Return v ->
  (is_answer_result v = true ->
   exists a s,
     (rag_query g request).2 =
     inr {| classification := VStr (lit "unknown");
            rewritten_question := VStr (question request);
            answer := a; sources := s |})
  /\ (forall response,
        (rag_query g request).2 = inr response ->
        classification response = VStr (lit "unknown")
        /\ rewritten_question response = VStr (question request))
  /\ In (Log WARNING 115
           (lit "Preprocessing failed: " ++ exn_text e ++ lit ", using fallback"))
        (rag_query g request).1
  /\ (rag_query g request).2 =
     (rag_query
        (set_preprocessing_chain
           (Some {| invoke := fun _ => Return (fallback (question request)) |}) g)
        request).2.
Proof.
  intros Hpre Hqa HA HB.
  assert (Hresult : (rag_query g request).2 =
    (except_clauses (merge_results request
       (Return (fallback (question request))) (Return v))).2).
  { rewrite (rag_query_result g request pre qa Hpre Hqa), run_preprocessing_result.
    rewrite Hpre. cbn [call_invoke]. by rewrite HA, HB. }
  split; [|split; [|split]].
  - intros Hv. rewrite Hresult, except_clauses_snd, merge_results_snd, read_fallback.
    cbn [ret snd].
    destruct (read_rag_answer_result v Hv) as (a & context & s & -> & Ha & Hs).
    rewrite Hs. exists a, s.
    rewrite new_RAGQueryResponse_valid; try done.
    by apply format_sources_shape in Hs.
  - intros response. rewrite Hresult, except_clauses_snd, merge_results_snd, read_fallback.
    cbn [ret snd].
    destruct (read_rag (Return v)).2 as [x|[a context]]; [by destruct x|].
    destruct (format_sources_optimized context) as [s|x]; [|done].
    destruct (new_RAGQueryResponse _ _ a s) as [response'|x] eqn:Hnew; [|done].
    intros [= <-]. apply new_RAGQueryResponse_inv in Hnew as [-> _]. done.
  - unfold rag_query, rag_query_body, run_preprocessing.
    rewrite Hpre, Hqa. cbn [present negb orb call_invoke]. rewrite HA.
    match goal with |- In _ (except_clauses ?body).1 =>
      assert (Hin : In (Log WARNING 115
        (lit "Preprocessing failed: " ++ exn_text e ++ lit ", using fallback")) body.1)
    end.
    { rewrite !bind_fst. cbn [emit fst snd]. apply in_or_app. right.
      apply in_or_app. right. apply in_or_app. left. cbn. by left. }
    match goal with |- In _ (except_clauses ?body).1 => destruct body as [evs [[h|x]|a]] end;
      cbn [except_clauses fst] in *; [done| |done].
    apply in_or_app. by left.
  - rewrite Hresult.
    erewrite (rag_query_result (set_preprocessing_chain _ g)); [|reflexivity|exact Hqa].
    rewrite run_preprocessing_result. cbn [set_preprocessing_chain preprocessing_chain
      call_invoke invoke]. by rewrite HB.
Qed.


(** What the handler does when the answer chain raises.  It fails with
    status 500 and returns no response, whatever preprocessing did.  When
    preprocessing raised or returned a dict, the detail is "RAG pipeline
    failed: " followed by the text of the exception.  When preprocessing
    returned something that is not a dict, line 172 fails on it first, and
    the detail is that of the AttributeError instead. *)
Theorem answer_failure_is_fatal g request pre qa e :
  preprocessing_chain g = Some pre -> qa_chain g = Some qa ->
  invoke qa (chain_input (question request) (history request)) = Raise e ->
  (exists detail, (rag_query g request).2 = inl (HTTPError 500 detail))
  /\ ((forall v, invoke pre (chain_input (question request) (history request)) = Return v ->
                 is_dict v = true) ->
      (rag_query g request).2 =
      inl (HTTPError 500 (lit "RAG pipeline failed: " ++ exn_text e)))
  /\ (forall v, invoke pre (chain_input (question request) (history request)) = Return v ->
                is_dict v = false ->
      (rag_query g request).2 =
      inl (HTTPError 500 (lit "Error during RAG pipeline: "
                          ++ exn_text (AttributeError (type_name v) (lit "get"))))).
Proof.
  intros Hpre Hqa HB.
  rewrite (rag_query_result g request pre qa Hpre Hqa), run_preprocessing_result.
  rewrite except_clauses_snd, merge_results_snd, Hpre, HB. cbn [call_invoke].
  destruct (invoke pre _) as [v|x] eqn:HA.
  - destruct v as [|t|xs|d|c m]; cbn [read_preprocessing read_rag ret throw snd];
      (split; [by eexists|split]);
      first [ intros Hdict; by specialize (Hdict _ eq_refl)
            | intros v [= <-]; done
            | done ].
  - rewrite read_fallback. cbn [read_rag ret throw snd].
    split; [by eexists|]. split; [done|]. intros v [=].
Qed.

(** Whatever the handler returns as a response went through the pydantic
    constructor, after both results were read. *)
Lemma rag_query_response_inv g request response :
  (rag_query g request).2 = inr response ->
  exists pre qa c r a context s,
    preprocessing_chain g = Some pre /\ qa_chain g = Some qa
    /\ (read_preprocessing request
          (run_preprocessing g (question request) (history request)).2).2 = inr (c, r)
    /\ (read_rag (invoke qa (chain_input (question request) (history request)))).2
       = inr (a, context)
    /\ format_sources_optimized context = Return s
    /\ new_RAGQueryResponse c r a s = Return response.
Proof.
  intros H.
  destruct (preprocessing_chain g) as [pre|] eqn:Hpre;
    [|unfold rag_query in H; rewrite Hpre, orb_true_r in H; discriminate].
  destruct (qa_chain g) as [qa|] eqn:Hqa;
    [|unfold rag_query in H; rewrite Hqa in H; discriminate].
  rewrite (rag_query_result g request pre qa Hpre Hqa) in H.
  rewrite except_clauses_snd, merge_results_snd in H.
  destruct (read_preprocessing _ _).2 as [x|[c r]] eqn:HA; [by destruct x|].
  destruct (read_rag _).2 as [x|[a context]] eqn:HB; [by destruct x|].
  destruct (format_sources_optimized context) as [s|x] eqn:Hs; [|done].
  destruct (new_RAGQueryResponse c r a s) as [response'|x] eqn:Hnew; [|done].
  injection H as <-. by exists pre, qa, c, r, a, context, s.
Qed.

Lemma is_str_inv v : is_str v = true -> exists s, v = VStr s.
Proof. destruct v; try discriminate. by eexists. Qed.

(** C6, as the code has it.  In every response that the handler returns, the
    classification, the rewritten question and the answer are strs, never
    [None].  The answer is the "answer" entry of the result of the answer
    chain, or the text of the whole result when it has no such entry or is
    not a dict; nothing requires it to be non-empty.  The classification is
    the fallback "unknown" or the entry that preprocessing returned, and the
    rewritten question is the original question or the entry that
    preprocessing returned. *)
Theorem response_fields_are_strings g request response :
  (rag_query g request).2 = inr response ->
  (exists c r a,
     classification response = VStr c
     /\ rewritten_question response = VStr r
     /\ answer response = VStr a)
  /\ (exists qa v,
        qa_chain g = Some qa
        /\ invoke qa (chain_input (question request) (history request)) = Return v
        /\ answer response =
           match v with
           | VDict d => dict_get d (lit "answer") (VStr (py_str v))
           | _ => VStr (py_str v)
           end)
  /\ (classification response = VStr (lit "unknown")
      \/ exists pre d,
           preprocessing_chain g = Some pre
           /\ invoke pre (chain_input (question request) (history request))
              = Return (VDict d)
           /\ dict_lookup d (lit "classification") = Some (classification response))
  /\ (rewritten_question response = VStr (question request)
      \/ exists pre d,
           preprocessing_chain g = Some pre
           /\ invoke pre (chain_input (question request) (history request))
              = Return (VDict d)
           /\ dict_lookup d (lit "rewritten_question")
              = Some (rewritten_question response)).
Proof.
  intros H.
  apply rag_query_response_inv in H
    as (pre & qa & c & r & a & context & s & Hpre & Hqa & HA & HB & Hs & Hnew).
  apply new_RAGQueryResponse_inv in Hnew as (-> & Hc & Hr & Ha).
  cbn [classification rewritten_question answer].
  split; [|split; [|split]].
  - apply is_str_inv in Hc as [c' ->]. apply is_str_inv in Hr as [r' ->].
    apply is_str_inv in Ha as [a' ->]. by exists c', r', a'.
  - exists qa. destruct (invoke qa _) as [v|x]; [|discriminate].
    exists v. split; [done|]. split; [done|].
    destruct v; cbn in HB; by injection HB as <- _.
  - rewrite run_preprocessing_result, Hpre in HA. cbn [call_invoke] in HA.
    destruct (invoke pre _) as [v|x] eqn:Hv.
    + destruct v as [|t|xs|d|cc m]; try discriminate.
      cbn in HA. injection HA as <- _. unfold dict_get.
      destruct (dict_lookup d (lit "classification")) as [w|] eqn:Hw; [|by left].
      right. by exists pre, d.
    + rewrite read_fallback in HA. injection HA as <- _. by left.
  - rewrite run_preprocessing_result, Hpre in HA. cbn [call_invoke] in HA.
    destruct (invoke pre _) as [v|x] eqn:Hv.
    + destruct v as [|t|xs|d|cc m]; try discriminate.
      cbn in HA. injection HA as _ <-. unfold dict_get.
      destruct (dict_lookup d (lit "rewritten_question")) as [w|] eqn:Hw; [|by left].
      right. by exists pre, d.
    + rewrite read_fallback in HA. injection HA as _ <-. by left.
Qed.

(** C8. When the answer chain returns a value that is not a dict, every
    response of the handler carries [str] of that value as its answer and
    [None] as its sources; and the handler does return a response as soon as
    preprocessing raised or returned a record it can read. *)
Theorem free_text_answer g request pre qa v :
  preprocessing_chain g = Some pre -> qa_chain g = Some qa ->
  invoke qa (chain_input (question request) (history request)) = Return v ->
  is_dict v = false ->
  (forall response,
     (rag_query g request).2 = inr response ->
     answer response = VStr (py_str v) /\ sources response = VNone)
  /\ ((forall w, invoke pre (chain_input (question request) (history request)) = Return w ->
                 is_preprocessing_result w = true) ->
      exists c r,
        (rag_query g request).2 =
        inr {| classification := c; rewritten_question := r;
               answer := VStr (py_str v); sources := VNone |}).
Proof.
  intros Hpre Hqa HB Hv.
  assert (Hrag : (read_rag (Return v)).2 = inr (VStr (py_str v), VNone))
    by (by destruct v).
  split.
  - intros response H.
    apply rag_query_response_inv in H
      as (pre' & qa' & c & r & a & context & s & _ & Hqa' & _ & HB' & Hs & Hnew).
    rewrite Hqa in Hqa'. injection Hqa' as <-. rewrite HB, Hrag in HB'.
    injection HB' as <- <-. cbn in Hs. injection Hs as <-.
    by apply new_RAGQueryResponse_inv in Hnew as (-> & _).
  - intros HA.
    rewrite (rag_query_result g request pre qa Hpre Hqa), run_preprocessing_result.
    rewrite except_clauses_snd, merge_results_snd, Hpre, HB, Hrag. cbn [call_invoke].
    destruct (invoke pre _) as [w|x].
    + specialize (HA w eq_refl). destruct w as [|t|xs|d|cc m]; try discriminate.
      cbn [is_preprocessing_result] in HA. apply andb_prop in HA as [Hc Hr].
      cbn [read_preprocessing ret snd].
      change (format_sources_optimized VNone) with (Return VNone). cbv beta iota.
      rewrite new_RAGQueryResponse_valid; [by eexists _, _| | |done|by left].
      * by rewrite (is_str_dict_get _ _ _ []).
      * by rewrite (is_str_dict_get _ _ _ []).
    + rewrite read_fallback. cbn [ret snd].
      change (format_sources_optimized VNone) with (Return VNone). cbv beta iota.
      rewrite new_RAGQueryResponse_valid; [by eexists _, _|done..|by left].
Qed.


(** ** Events of the handler *)

Lemma except_clauses_fst {A} (body : Body A) :
  (except_clauses body).1 =
  body.1 ++ match body.2 with
            | inl (RaisedOther e) =>
                [Log ERROR 197 (lit "Unexpected error in RAG pipeline: " ++ exn_text e)]
            | _ => []
            end.
Proof. destruct body as [evs [[h|e]|a]]; cbn; by rewrite ?app_nil_r. Qed.

Lemma read_rag_fst b : (read_rag b).1 = [].
Proof. by destruct b as [[]|]. Qed.

Lemma merge_results_fst request a b :
  (merge_results request a b).1 = (read_preprocessing request a).1.
Proof.
  unfold merge_results. rewrite bind_fst.
  destruct (read_preprocessing request a).2 as [x|[c r]]; [by rewrite app_nil_r|].
  rewrite bind_fst, read_rag_fst.
  destruct (read_rag b).2 as [x|[ans context]]; [by rewrite app_nil_r|].
  rewrite bind_fst, !lift_fst.
  destruct (lift (format_sources_optimized context)).2; by rewrite ?lift_fst, app_nil_r.
Qed.

(** The branch of line 167 does log when it is entered. *)
Lemma read_preprocessing_exception request e :
  read_preprocessing request (Raise e)
  = ([Log WARNING 168 (lit "Preprocessing failed: " ++ exn_text e)],
     inr (VStr (lit "unknown"), VStr (question request))).
Proof. reflexivity. Qed.

Lemma read_preprocessing_return_fst request v :
  (read_preprocessing request (Return v)).1 = [].
Proof. by destruct v. Qed.

(** Every event of a run of the handler is a submission, the join, the
    warning of [run_preprocessing] or the error record of the last [except]
    clause. *)
Lemma rag_query_events g request ev :
  In ev (rag_query g request).1 ->
  match ev with
  | Submit _ _ _ | Gather => True
  | Log lvl line _ => (lvl = WARNING /\ line = 115) \/ (lvl = ERROR /\ line = 197)
  end.
Proof.
  unfold rag_query.
  destruct (negb (present (qa_chain g)) || negb (present (preprocessing_chain g)));
    [done|].
  rewrite except_clauses_fst. unfold rag_query_body.
  rewrite !bind_fst. cbn [emit fst snd]. rewrite merge_results_fst.
  pose proof (run_preprocessing_result g (question request) (history request)) as Hres.
  destruct (run_preprocessing g (question request) (history request)) as [log res] eqn:Hrun.
  cbn [fst snd] in *.
  assert (Hlog : forall x, In x log -> exists msg, x = Log WARNING 115 msg).
  { unfold run_preprocessing in Hrun.
    destruct (call_invoke _ _); injection Hrun as <- _; intros x [].
    - subst x. by eexists.
    - done. }
  assert (Hread : (read_preprocessing request res).1 = []).
  { rewrite Hres. destruct (call_invoke _ _); apply read_preprocessing_return_fst. }
  rewrite Hread. unfold run_rag_pipeline. cbn [fst].
  rewrite !in_app_iff. cbn [In].
  intros [[[<-|[]]|[[<-|[]]|[[Hin|[[]|[<-|[]]]]|[]]]]|Hin]; try done.
  - apply Hlog in Hin as [msg ->]. by left.
  - match type of Hin with In _ (match ?x with _ => _ end) => destruct x as [[h|e]|a] end;
      try done.
    destruct Hin as [<-|[]]. by right.
Qed.

(** C10. [run_preprocessing] never raises: it returns the result of the
    chain when there is one, and the fallback record when the chain raises.
    So the first result of the join is never an exception, and no run of the
    handler enters the branch of line 167, whose mark is the warning of
    line 168. *)
Theorem run_preprocessing_total g question h :
  (forall v,
     call_invoke (preprocessing_chain g) (chain_input question h) = Return v ->
     (run_preprocessing g question h).2 = Return v)
  /\ (forall e,
        call_invoke (preprocessing_chain g) (chain_input question h) = Raise e ->
        (run_preprocessing g question h).2 = Return (fallback question))
  /\ is_return (run_preprocessing g question h).2 = true
  /\ forall request msg, ~ In (Log WARNING 168 msg) (rag_query g request).1.
Proof.
  rewrite run_preprocessing_result.
  split; [by intros v ->|]. split; [by intros e ->|].
  split; [by destruct (call_invoke _ _)|].
  intros request msg Hin. apply rag_query_events in Hin.
  destruct Hin as [[_ [=]]|[[=] _]].
Qed.


(** ** Start-up *)

Lemma build_order_NoDup : NoDup build_order.
Proof. apply (bool_decide_unpack _). by vm_compute. Qed.

Lemma build_order_complete s : s ∈ build_order.
Proof. apply (bool_decide_unpack _). by destruct s; vm_compute. Qed.

(** A step that raises ends the start-up with that exception. *)
Lemma run_step_raises b s g e :
  call_builder b s g = Raise e -> run_step b s g = (g, Some e).
Proof. unfold run_step. by intros ->. Qed.

(** A checked step that yields an empty object ends it with its
    RuntimeError. *)
Lemma run_step_empty b s g g' msg :
  call_builder b s g = Return g' -> assigned s g' = false -> null_check s = Some msg ->
  run_step b s g = (g', Some (RuntimeError (lit msg))).
Proof. unfold run_step. by intros -> -> ->. Qed.

(** A step assigns its own global only. *)
Lemma run_step_frame b s g x :
  x <> s -> assigned x (run_step b s g).1 = assigned x g.
Proof.
  intros Hx. unfold run_step.
  destruct (call_builder b s g) as [g'|e] eqn:Hcall; [|done]. cbn [fst].
  destruct s; cbn [call_builder] in Hcall;
    repeat match type of Hcall with
           | context [if ?c then _ else _] => destruct c
           | context [assign ?o _ _] => destruct o; cbn [assign] in Hcall
           end;
    simplify_eq; by destruct x.
Qed.

(** After a step that did not fail, its global holds an object, unless the
    step is the unchecked call of [create_qa_chain]. *)
Lemma run_step_assigned b s g :
  (run_step b s g).2 = None -> s <> StepQAChain -> assigned s (run_step b s g).1 = true.
Proof.
  unfold run_step. intros Hok Hs.
  destruct (call_builder b s g) as [g'|e] eqn:Hcall; [|done]. cbn [fst snd] in *.
  destruct s; cbn [null_check] in Hok; try done;
    try (by destruct (assigned _ g'));
    cbn [call_builder] in Hcall;
    match type of Hcall with
    | context [assign ?o _ _] => destruct o; cbn [assign] in Hcall
    end; by simplify_eq.
Qed.

Lemma run_steps_app b done todo g :
  failure (run_steps b done g) = None ->
  run_steps b (done ++ todo) g =
  let r1 := run_steps b done g in
  let r2 := run_steps b todo (final r1) in
  {| startup_log := startup_log r1 ++ startup_log r2;
     visited := visited r1 ++ visited r2;
     failure := failure r2; final := final r2 |}.
Proof.
  revert g. induction done as [|s done IH]; intros g; cbv zeta;
    cbn [run_steps app startup_log visited failure final].
  - intros _. by destruct (run_steps b todo g).
  - destruct (run_step b s g) as [g' [e|]];
      cbn [startup_log visited failure final]; [done|].
    intros Hok. rewrite (IH g' Hok). done.
Qed.

Lemma run_steps_frame b steps g x :
  x ∉ steps -> assigned x (final (run_steps b steps g)) = assigned x g.
Proof.
  revert g. induction steps as [|s steps IH]; intros g Hx; cbn [run_steps]; [done|].
  apply not_elem_of_cons in Hx as [Hs Hx].
  pose proof (run_step_frame b s g x Hs) as Hframe.
  destruct (run_step b s g) as [g' [e|]]; cbn [final fst] in *; [done|].
  by rewrite IH.
Qed.

Lemma run_steps_assigned b steps g x :
  NoDup steps -> failure (run_steps b steps g) = None ->
  x ∈ steps -> x <> StepQAChain ->
  assigned x (final (run_steps b steps g)) = true.
Proof.
  revert g. induction steps as [|s steps IH]; intros g Hnd Hok Hx Hqa;
    [by apply elem_of_nil in Hx|].
  apply NoDup_cons in Hnd as [Hs Hnd]. cbn [run_steps] in *.
  pose proof (run_step_assigned b s g) as Hstep.
  destruct (run_step b s g) as [g' [e|]]; cbn [failure final fst snd] in *; [done|].
  apply elem_of_cons in Hx as [->|Hx].
  - rewrite run_steps_frame by done. by apply Hstep.
  - by apply IH.
Qed.

(** Every state that the run goes through is the one left by some step [s]
    after the steps before it succeeded. *)
Lemma run_steps_visited b steps g0 g :
  g ∈ visited (run_steps b steps g0) ->
  exists done s todo,
    steps = done ++ s :: todo
    /\ failure (run_steps b done g0) = None
    /\ g = (run_step b s (final (run_steps b done g0))).1.
Proof.
  revert g0. induction steps as [|s steps IH]; intros g0; cbn [run_steps].
  - intros H. by apply elem_of_nil in H.
  - destruct (run_step b s g0) as [g' o] eqn:Hstep.
    assert (Hhead : g = g' -> exists done s' todo,
      s :: steps = done ++ s' :: todo /\ failure (run_steps b done g0) = None
      /\ g = (run_step b s' (final (run_steps b done g0))).1).
    { intros ->. exists [], s, steps. cbn. by rewrite Hstep. }
    destruct o as [e|]; cbn [visited].
    + intros H. apply list_elem_of_singleton in H. by apply Hhead.
    + intros H. apply elem_of_cons in H as [H|H]; [by apply Hhead|].
      apply IH in H as (done & s' & todo & -> & Hok & ->).
      exists (s :: done), s', todo. cbn [run_steps app]. by rewrite Hstep.
Qed.

(** In such a state the steps that did not start have left their globals
    empty, and the steps that succeeded have filled theirs. *)
Lemma visited_state b done s todo :
  build_order = done ++ s :: todo ->
  failure (run_steps b done (set_executor (Some 4) initial_globals)) = None ->
  let g := (run_step b s (final (run_steps b done
              (set_executor (Some 4) initial_globals)))).1 in
  (forall x, x ∈ todo -> assigned x g = false)
  /\ (forall x, x ∈ done -> x <> StepQAChain -> assigned x g = true).
Proof.
  intros Hsplit Hok g.
  pose proof build_order_NoDup as Hnd. rewrite Hsplit in Hnd.
  apply NoDup_app in Hnd as (Hdone & Hdisj & Hrest).
  apply NoDup_cons in Hrest as [Hs Htodo].
  split.
  - intros x Hx. unfold g.
    rewrite run_step_frame by (intros ->; done).
    rewrite run_steps_frame; [by destruct x|].
    intros Hin. apply (Hdisj x Hin). by right.
  - intros x Hx Hqa. unfold g.
    rewrite run_step_frame by (intros ->; apply (Hdisj s Hx); by left).
    by apply run_steps_assigned.
Qed.


Ltac solve_elem := apply (bool_decide_unpack _); by vm_compute.

(** While the start-up runs, and after it, the two chains are both in place
    only if every other component is. *)
Lemma visited_chains b g :
  In g (visited (lifespan b)) ->
  fully_initialized g = false ->
  qa_chain g = None \/ preprocessing_chain g = None.
Proof.
  unfold lifespan. cbn [visited].
  intros [<-|[<-|Hin]]; [by left..|]. intros Hfull.
  apply list_elem_of_In, run_steps_visited in Hin
    as (done & s & todo & Hsplit & Hok & Hg).
  destruct (visited_state b done s todo Hsplit Hok) as [Htodo Hdone].
  rewrite <- Hg in Htodo, Hdone. clear Hg Hok.
  destruct (qa_chain g) as [qa|] eqn:Hqa; [|by left].
  destruct (preprocessing_chain g) as [pre|] eqn:Hpre; [|by right].
  exfalso.
  assert (Hlast : assigned StepPreprocessingChain g = true)
    by (cbn [assigned]; by rewrite Hpre).
  unfold build_order in Hsplit.
  do 6 (destruct done as [|? done]; cbn [app] in Hsplit;
        [ injection Hsplit as <- <-;
          rewrite Htodo in Hlast by solve_elem; discriminate
        | injection Hsplit as <- Hsplit ]).
  destruct done as [|? done]; cbn [app] in Hsplit;
    [clear Hsplit|injection Hsplit as _ Hsplit; by destruct done].
  pose proof (Hdone StepEmbeddings ltac:(solve_elem) ltac:(done)) as H1.
  pose proof (Hdone StepWeaviate ltac:(solve_elem) ltac:(done)) as H2.
  pose proof (Hdone StepLLM ltac:(solve_elem) ltac:(done)) as H3.
  pose proof (Hdone StepReranker ltac:(solve_elem) ltac:(done)) as H4.
  pose proof (Hdone StepRetriever ltac:(solve_elem) ltac:(done)) as H5.
  cbn [assigned] in *. unfold fully_initialized in Hfull.
  rewrite H1, H2, H3, H4, H5, Hqa, Hpre in Hfull. discriminate.
Qed.


(** C7. When a request arrives while the registry is not fully initialized
    (in any state that the start-up goes through or ends in), the handler
    answers with status 500 and the detail "RAG pipeline not initialized.",
    and it records no event at all: nothing is handed to the executor. *)
Theorem query_before_initialization b g request :
  In g (visited (lifespan b)) ->
  fully_initialized g = false ->
  rag_query g request
  = ([], inl (HTTPError 500 (lit "RAG pipeline not initialized.")))
  /\ forall fn q h, ~ In (Submit fn q h) (rag_query g request).1.
Proof.
  intros Hin Hfull.
  assert (Hguard : rag_query g request
                   = ([], inl (HTTPError 500 (lit "RAG pipeline not initialized.")))).
  { unfold rag_query.
    destruct (visited_chains b g Hin Hfull) as [-> | ->]; [done|].
    by rewrite orb_true_r. }
  split; [exact Hguard|]. rewrite Hguard. by intros fn q h [].
Qed.


Lemma run_steps_log b steps g :
  failure (run_steps b steps g) = None ->
  startup_log (run_steps b steps g) = log_line <$> steps.
Proof.
  revert g. induction steps as [|s steps IH]; intros g; cbn [run_steps]; [done|].
  destruct (run_step b s g) as [g' [e|]]; cbn [failure startup_log]; [done|].
  intros Hok. by rewrite (IH g' Hok).
Qed.

(** The start-up when step [s] fails with [e] after the steps [done]. *)
Lemma lifespan_stops b done s todo e :
  build_order = done ++ s :: todo ->
  failure (run_steps b done (set_executor (Some 4) initial_globals)) = None ->
  (run_step b s (final (run_steps b done (set_executor (Some 4) initial_globals)))).2
  = Some e ->
  failure (lifespan b) = Some (s, e)
  /\ serving (lifespan b) = false
  /\ startup_log (lifespan b)
     = Log INFO 39 (lit "Starting RAG API initialization...")
       :: (log_line <$> done ++ [s])
  /\ forall x, x ∈ todo -> assigned x (final (lifespan b)) = false.
Proof.
  intros Hsplit Hok Hfail.
  destruct (visited_state b done s todo Hsplit Hok) as [Htodo _].
  unfold lifespan, serving. cbn [failure final startup_log].
  rewrite Hsplit, (run_steps_app b done (s :: todo) _ Hok).
  cbv zeta. cbn [run_steps failure final startup_log].
  destruct (run_step b s _) as [g' o]. cbn [fst snd] in *. subst o.
  cbn [failure final startup_log].
  rewrite (run_steps_log b done _ Hok), app_nil_r, fmap_app. done.
Qed.

(** C5, as the code has it.  Take any step [s] of the build order that is
    reached, the steps before it having succeeded.  If the step raises, the
    start-up ends there with that exception.  If it is one of the four
    checked steps (embedding model, Weaviate, LLM, reranker) and leaves an
    empty object in its global, the start-up ends there with the
    RuntimeError whose text names the step.  In both cases the [yield] is
    not reached, the log stops at the line of [s], and the globals of all
    later steps are still [None].  When the [yield] is reached, every
    component other than the answer chain holds an object. *)
Theorem lifespan_fails_fast b done s todo :
  build_order = done ++ s :: todo ->
  failure (run_steps b done (set_executor (Some 4) initial_globals)) = None ->
  let g := final (run_steps b done (set_executor (Some 4) initial_globals)) in
  let stopped (e : exn) :=
    failure (lifespan b) = Some (s, e)
    /\ serving (lifespan b) = false
    /\ startup_log (lifespan b)
       = Log INFO 39 (lit "Starting RAG API initialization...")
         :: (log_line <$> done ++ [s])
    /\ forall x, x ∈ todo -> assigned x (final (lifespan b)) = false in
  (forall e, call_builder b s g = Raise e -> stopped e)
  /\ (forall g' msg,
        call_builder b s g = Return g' -> assigned s g' = false ->
        null_check s = Some msg ->
        stopped (RuntimeError (lit msg)))
  /\ (serving (lifespan b) = true ->
      forall x, x <> StepQAChain -> assigned x (final (lifespan b)) = true).
Proof.
  intros Hsplit Hok g stopped. split; [|split].
  - intros e Hraise. apply (lifespan_stops b done s todo e Hsplit Hok).
    fold g. by rewrite (run_step_raises b s g e Hraise).
  - intros g' msg Hcall Hempty Hcheck.
    apply (lifespan_stops b done s todo _ Hsplit Hok).
    fold g. by rewrite (run_step_empty b s g g' msg Hcall Hempty Hcheck).
  - unfold lifespan, serving. cbn [failure final].
    destruct (failure (run_steps b build_order _)) eqn:Hfailure; [done|].
    intros _ x Hx.
    apply run_steps_assigned; auto using build_order_NoDup, build_order_complete.
Qed.


(** ** Results outside the expected shape *)

Lemma format_loop_not_documents docs acc :
  forallb is_document docs = false -> exists e, format_loop docs acc = Raise e.
Proof.
  revert acc. induction docs as [|doc docs IH]; intros acc; cbn [forallb format_loop];
    [discriminate|].
  destruct doc; cbn [is_document andb format_document]; try by eexists.
  apply IH.
Qed.

Lemma format_sources_bad_context context :
  is_context context = false -> exists e, format_sources_optimized context = Raise e.
Proof.
  unfold format_sources_optimized, is_context.
  destruct context as [|s|docs|d|c m]; cbn [truthy negb elements].
  - discriminate.
  - destruct s; [discriminate|]. intros _. by eexists.
  - intros Hdocs. destruct docs as [|doc docs]; [discriminate|].
    change (negb (negb (bool_decide (doc :: docs = [])))) with false. cbv iota.
    by destruct (format_loop_not_documents _ [] Hdocs) as [e ->]; eexists.
  - destruct d as [|[k v] d]; [discriminate|]. intros _. by eexists.
  - intros _. by eexists.
Qed.

(** The shape [is_answer_result] is exactly what the handler needs: any
    other result of the answer chain ends in an error. *)
Lemma malformed_answer_result_fails g request pre qa v :
  preprocessing_chain g = Some pre -> qa_chain g = Some qa ->
  invoke qa (chain_input (question request) (history request)) = Return v ->
  is_answer_result v = false ->
  exists h, (rag_query g request).2 = inl h.
Proof.
  intros Hpre Hqa HB Hv.
  destruct (rag_query g request).2 as [h|response] eqn:H; [by exists h|].
  apply rag_query_response_inv in H
    as (pre' & qa' & c & r & a & context & s & _ & Hqa' & _ & HB' & Hs & Hnew).
  rewrite Hqa in Hqa'. injection Hqa' as <-. rewrite HB in HB'.
  destruct v as [| | |d|]; try discriminate.
  cbn in HB'. injection HB' as <- <-.
  apply new_RAGQueryResponse_inv in Hnew as (_ & _ & _ & Ha).
  cbn [is_answer_result] in Hv.
  rewrite (is_str_dict_get _ _ [] (py_repr (VDict d))), Ha in Hv.
  cbn [andb] in Hv. apply format_sources_bad_context in Hv as [e He].
  rewrite He in Hs. discriminate.
Qed.

(** * Further properties *)

(** ** More on the response assembler *)

(** X1. For a list of documents, content of at most 200 characters comes
    back verbatim as its preview; longer content comes back as exactly 203
    characters: its first 200 followed by "...". *)
Theorem preview_verbatim_or_203 (docs : list (str * dict)) (out : list value) :
  format_sources_optimized (VList (document <$> docs)) = Return (VList out) ->
  forall i content metadata,
    docs !! i = Some (content, metadata) ->
    exists source preview,
      out !! i = Some (VDict [(lit "source", source); (lit "preview", VStr preview)])
      /\ (length content <= 200 -> preview = content)
      /\ (200 < length content ->
          length preview = 203
          /\ take 200 preview = take 200 content
          /\ drop 200 preview = ELLIPSIS).
Proof.
  intros Hrun i content metadata Hi.
  destruct (format_loop_documents docs []) as (out' & Hloop & _ & Hnth).
  unfold format_sources_optimized in Hrun.
  destruct docs as [|d docs]; [by rewrite lookup_nil in Hi|].
  change (truthy (VList (document <$> d :: docs))) with true in Hrun.
  cbn [negb elements] in Hrun. rewrite Hloop in Hrun. injection Hrun as <-.
  eexists _, _. split; [exact (Hnth i content metadata Hi)|].
  destruct (Nat.ltb_spec 200 (length content)) as [Hlong|Hshort].
  - split; [lia|]. intros _.
    assert (Htake : length (take 200 content) = 200) by (rewrite length_take; lia).
    split; [|split].
    + rewrite length_app, Htake. reflexivity.
    + rewrite take_app_length'; [done|by symmetry].
    + rewrite drop_app_length'; [done|by symmetry].
  - split; [|lia]. intros _. rewrite app_nil_r. by apply take_ge.
Qed.

Lemma format_loop_rejects (docs : list (str * dict)) bad rest acc :
  is_document bad = false ->
  format_loop ((document <$> docs) ++ bad :: rest) acc
  = Raise (AttributeError (type_name bad) (lit "page_content")).
Proof.
  intros Hbad. revert acc.
  induction docs as [|[content metadata] docs IH]; intros acc.
  - cbn [fmap list_fmap app format_loop]. by destruct bad.
  - cbn [fmap list_fmap app format_loop document format_document fst snd]. apply IH.
Qed.

(** X2. A list of sources in which something is not a Document makes
    [format_sources_optimized] raise the AttributeError of the first such
    element ("... object has no attribute 'page_content'"); the entries
    already built for the documents before it are lost. *)
Theorem format_sources_rejects_non_document (docs : list (str * dict)) bad rest :
  is_document bad = false ->
  format_sources_optimized (VList ((document <$> docs) ++ bad :: rest))
  = Raise (AttributeError (type_name bad) (lit "page_content")).
Proof.
  intros Hbad. unfold format_sources_optimized.
  assert (Htruthy : truthy (VList ((document <$> docs) ++ bad :: rest)) = true)
    by (by destruct docs).
  rewrite Htruthy. cbn [negb elements].
  by rewrite (format_loop_rejects docs bad rest [] Hbad).
Qed.


(** ** More on the handler *)

Lemma fallback_is_preprocessing_result question :
  is_preprocessing_result (fallback question) = true.
Proof. by vm_compute. Qed.

Lemma read_preprocessing_inr request w c r :
  (read_preprocessing request (Return w)).2 = inr (c, r) ->
  exists d,
    w = VDict d
    /\ c = dict_get d (lit "classification") (VStr (lit "unknown"))
    /\ r = dict_get d (lit "rewritten_question") (VStr (question request)).
Proof. destruct w; try discriminate. cbn. intros [= <- <-]. by eexists. Qed.

(** What is raised after the join is either the HTTPException of line 176,
    for an answer chain that raised, or an exception of the handler's own
    reading and assembling. *)
Lemma merge_results_raised request a b x :
  (merge_results request a b).2 = inl x ->
  (exists e, x = RaisedOther e)
  \/ (exists e, b = Raise e
                /\ x = RaisedHTTP (HTTPError 500 (lit "RAG pipeline failed: " ++ exn_text e))).
Proof.
  rewrite merge_results_snd.
  destruct (read_preprocessing request a).2 as [y|[c r]] eqn:HA.
  - intros [= <-]. left.
    destruct a as [w|e]; [|discriminate].
    destruct w; cbn in HA; try discriminate HA; injection HA as <-; by eexists.
  - destruct b as [v|e].
    + assert (Hrag : exists ans context, (read_rag (Return v)).2 = inr (ans, context))
        by (destruct v; by eexists _, _).
      destruct Hrag as (ans & context & ->).
      destruct (format_sources_optimized context) as [s|e]; [|intros [= <-]; left; by eexists].
      destruct (new_RAGQueryResponse c r ans s); [discriminate|].
      intros [= <-]. left. by eexists.
    + cbn. intros [= <-]. right. by eexists.
Qed.

(** X3. The handler fails with status 500 only, and the detail has one of
    three forms: "RAG pipeline not initialized." when a chain is missing,
    "RAG pipeline failed: " with the text of the exception that the answer
    chain raised, or "Error during RAG pipeline: " with the text of an
    exception met while reading and assembling the results. *)
Theorem rag_query_error_forms g request h :
  (rag_query g request).2 = inl h ->
  exists detail,
    h = HTTPError 500 detail
    /\ ((detail = lit "RAG pipeline not initialized."
         /\ (qa_chain g = None \/ preprocessing_chain g = None))
        \/ (exists qa e,
              qa_chain g = Some qa
              /\ invoke qa (chain_input (question request) (history request)) = Raise e
              /\ detail = lit "RAG pipeline failed: " ++ exn_text e)
        \/ (exists e, detail = lit "Error during RAG pipeline: " ++ exn_text e)).
Proof.
  destruct (qa_chain g) as [qa|] eqn:Hqa; cycle 1.
  { unfold rag_query. rewrite Hqa. cbn. intros [= <-]. eexists. split; [done|].
    left. split; [done|by left]. }
  destruct (preprocessing_chain g) as [pre|] eqn:Hpre; cycle 1.
  { unfold rag_query. rewrite Hqa, Hpre. cbn. intros [= <-]. eexists. split; [done|].
    left. split; [done|by right]. }
  rewrite (rag_query_result g request pre qa Hpre Hqa), except_clauses_snd.
  destruct (merge_results _ _ _).2 as [x|response] eqn:Hmerge; [|discriminate].
  apply merge_results_raised in Hmerge as [[e ->]|(e & Hraise & ->)].
  - intros [= <-]. eexists. split; [done|]. right. right. by exists e.
  - intros [= <-]. eexists. split; [done|]. right. left. by exists qa, e.
Qed.

(** A response comes back as soon as the answer chain returns an answer
    result and preprocessing raises or returns a record that can be read. *)
Lemma rag_query_response_intro g request pre qa v :
  preprocessing_chain g = Some pre -> qa_chain g = Some qa ->
  invoke qa (chain_input (question request) (history request)) = Return v ->
  is_answer_result v = true ->
  (forall w, invoke pre (chain_input (question request) (history request)) = Return w ->
             is_preprocessing_result w = true) ->
  exists response, (rag_query g request).2 = inr response.
Proof.
  intros Hpre Hqa HB Hv HA.
  rewrite (rag_query_result g request pre qa Hpre Hqa), run_preprocessing_result.
  rewrite except_clauses_snd, merge_results_snd, Hpre, HB. cbn [call_invoke].
  destruct (read_rag_answer_result v Hv) as (a & context & s & -> & Ha & Hs).
  rewrite Hs.
  assert (Hshape := format_sources_shape _ _ Hs).
  assert (Hpair : exists c r,
    (read_preprocessing request
       match invoke pre (chain_input (question request) (history request)) with
       | Return w => Return w
       | Raise _ => Return (fallback (question request))
       end).2 = inr (c, r) /\ is_str c = true /\ is_str r = true).
  { destruct (invoke pre _) as [w|e].
    - specialize (HA w eq_refl). destruct w as [| | |d|]; try discriminate.
      cbn [is_preprocessing_result] in HA. apply andb_prop in HA as [Hc Hr].
      eexists _, _. split; [reflexivity|].
      by rewrite (is_str_dict_get _ _ _ []), Hc, (is_str_dict_get _ _ _ []), Hr.
    - rewrite read_fallback. by eexists _, _. }
  destruct Hpair as (c & r & -> & Hc & Hr).
  rewrite new_RAGQueryResponse_valid by done. by eexists.
Qed.

(** Conversely, a response only comes back in that situation. *)
Lemma rag_query_response_elim g request response :
  (rag_query g request).2 = inr response ->
  exists pre qa v,
    preprocessing_chain g = Some pre /\ qa_chain g = Some qa
    /\ invoke qa (chain_input (question request) (history request)) = Return v
    /\ is_answer_result v = true
    /\ forall w,
         invoke pre (chain_input (question request) (history request)) = Return w ->
         is_preprocessing_result w = true.
Proof.
  intros H.
  pose proof H as Hinv. apply rag_query_response_inv in Hinv
    as (pre & qa & c & r & a & context & s & Hpre & Hqa & HA & HB & Hs & Hnew).
  apply new_RAGQueryResponse_inv in Hnew as (_ & Hc & Hr & _).
  destruct (invoke qa _) as [v|e] eqn:Hv; [|discriminate].
  exists pre, qa, v. repeat split; try done.
  - destruct (is_answer_result v) eqn:Hshape; [done|].
    destruct (malformed_answer_result_fails g request pre qa v Hpre Hqa Hv Hshape)
      as [h Hh].
    rewrite H in Hh. discriminate.
  - intros w Hw.
    rewrite run_preprocessing_result, Hpre in HA. cbn [call_invoke] in HA.
    rewrite Hw in HA. apply read_preprocessing_inr in HA as (d & -> & -> & ->).
    cbn [is_preprocessing_result].
    by rewrite (is_str_dict_get _ _ [] (lit "unknown")), Hc,
               (is_str_dict_get _ _ [] (question request)), Hr.
Qed.

(** X4. The handler returns a response exactly when both chains are in
    place, the answer chain returns an answer result (free text, or a dict
    whose "answer", if any, is a str and whose "context", if any, is empty or
    a list of Documents) and the preprocessing chain raises or returns a dict
    whose "classification" and "rewritten_question", if any, are strs. *)
Theorem rag_query_succeeds_iff g request :
  (exists response, (rag_query g request).2 = inr response)
  <->
  (exists pre qa v,
     preprocessing_chain g = Some pre /\ qa_chain g = Some qa
     /\ invoke qa (chain_input (question request) (history request)) = Return v
     /\ is_answer_result v = true
     /\ forall w,
          invoke pre (chain_input (question request) (history request)) = Return w ->
          is_preprocessing_result w = true).
Proof.
  split.
  - intros [response H]. by apply (rag_query_response_elim g request response).
  - intros (pre & qa & v & Hpre & Hqa & Hv & Hshape & HA).
    by apply (rag_query_response_intro g request pre qa v).
Qed.

Lemma format_loop_entries (P : value -> Prop) docs acc out :
  (forall content metadata entry,
      format_document (VDocument content metadata) = Return entry -> P entry) ->
  Forall P acc -> format_loop docs acc = Return out -> Forall P out.
Proof.
  intros Hentry. revert acc.
  induction docs as [|doc docs IH]; intros acc Hacc; cbn [format_loop].
  - by intros [= <-].
  - destruct (format_document doc) as [entry|e] eqn:Hdoc; [|discriminate].
    apply IH. apply Forall_app. split; [done|]. apply Forall_singleton.
    destruct doc; try discriminate. by eapply Hentry.
Qed.

Lemma format_sources_nonempty sources out :
  format_sources_optimized sources = Return (VList out) -> out <> [].
Proof.
  unfold format_sources_optimized.
  destruct (truthy sources) eqn:Htruthy; cbn [negb]; [|discriminate].
  destruct (elements sources) as [docs|e] eqn:Hdocs; [|discriminate].
  destruct (format_loop docs []) as [out'|e] eqn:Hrun; [|discriminate].
  intros [= ->] ->. apply format_loop_length in Hrun. cbn in Hrun.
  destruct docs as [|doc docs]; [|discriminate].
  destruct sources as [|s|xs|d|c m]; cbn in Hdocs, Htruthy; try discriminate.
  - by destruct s.
  - by injection Hdocs as ->.
  - by destruct d.
Qed.

Lemma format_document_entry content metadata entry :
  format_document (VDocument content metadata) = Return entry -> is_source_entry entry.
Proof.
  cbn [format_document]. intros [= <-]. eexists _, _. split; [reflexivity|].
  pose proof (length_take_le content 200) as Hle.
  destruct (Nat.ltb 200 (length content)).
  - rewrite length_app. change (length ELLIPSIS) with 3.
    pose proof (length_take content 200). lia.
  - pose proof (length_take content 200). lia.
Qed.

(** X5. The sources of a response are either [None] or a non-empty list
    in which every entry is a dict with exactly the keys "source" and
    "preview", the preview being a str of at most 203 characters. *)
Theorem response_sources_shape g request response :
  (rag_query g request).2 = inr response ->
  sources response = VNone
  \/ exists entries,
       sources response = VList entries
       /\ entries <> []
       /\ Forall is_source_entry entries.
Proof.
  intros H. apply rag_query_response_inv in H
    as (pre & qa & c & r & a & context & s & _ & _ & _ & _ & Hs & Hnew).
  apply new_RAGQueryResponse_inv in Hnew as (-> & _). cbn [sources].
  destruct (format_sources_shape _ _ Hs) as [->|[entries ->]]; [by left|].
  right. exists entries. split; [done|].
  split; [by apply (format_sources_nonempty context)|].
  unfold format_sources_optimized in Hs.
  destruct (negb (truthy context)); [discriminate|].
  destruct (elements context) as [docs|e]; [|discriminate].
  destruct (format_loop docs []) as [out|e] eqn:Hloop; [|discriminate].
  injection Hs as ->.
  eapply format_loop_entries; [|by apply Forall_nil|exact Hloop].
  apply format_document_entry.
Qed.

(** X6. A preprocessing result that has neither key is, for the caller, the
    same as a preprocessing failure: both runs return the same response or
    the same error. *)
Theorem preprocessing_without_keys_is_fallback g1 g2 request pre1 pre2 qa d e :
  preprocessing_chain g1 = Some pre1 -> preprocessing_chain g2 = Some pre2 ->
  qa_chain g1 = Some qa -> qa_chain g2 = Some qa ->
  invoke pre1 (chain_input (question request) (history request)) = Return (VDict d) ->
  dict_lookup d (lit "classification") = None ->
  dict_lookup d (lit "rewritten_question") = None ->
  invoke pre2 (chain_input (question request) (history request)) = Raise e ->
  (rag_query g1 request).2 = (rag_query g2 request).2.
Proof.
  intros Hpre1 Hpre2 Hqa1 Hqa2 H1 Hc Hr H2.
  rewrite (rag_query_result g1 request pre1 qa Hpre1 Hqa1).
  rewrite (rag_query_result g2 request pre2 qa Hpre2 Hqa2).
  rewrite !run_preprocessing_result, Hpre1, Hpre2. cbn [call_invoke].
  rewrite H1, H2, !except_clauses_snd, !merge_results_snd, read_fallback.
  cbn [read_preprocessing]. unfold dict_get. by rewrite Hc, Hr.
Qed.


(** ** More on the events of the handler *)

(** The list of events that the model gives for a run past the guard, with
    the worker's record listed before the join. *)
Lemma rag_query_trace g request pre qa :
  preprocessing_chain g = Some pre -> qa_chain g = Some qa ->
  (rag_query g request).1
  = Submit RunPreprocessing (question request) (history request)
    :: Submit RunRagPipeline (question request) (history request)
    :: (run_preprocessing g (question request) (history request)).1
    ++ Gather
    :: match (merge_results request
                (run_preprocessing g (question request) (history request)).2
                (invoke qa (chain_input (question request) (history request)))).2 with
       | inl (RaisedOther e) =>
           [Log ERROR 197 (lit "Unexpected error in RAG pipeline: " ++ exn_text e)]
       | _ => []
       end.
Proof.
  intros Hpre Hqa. unfold rag_query, rag_query_body, run_rag_pipeline.
  rewrite Hpre, Hqa. cbn [present negb orb call_invoke fst snd].
  rewrite except_clauses_fst, !bind_fst, !bind_snd, merge_results_fst.
  cbn [emit fst snd app].
  assert (Hread : (read_preprocessing request
            (run_preprocessing g (question request) (history request)).2).1 = []).
  { rewrite run_preprocessing_result.
    destruct (call_invoke _ _); apply read_preprocessing_return_fst. }
  rewrite Hread, !app_nil_r, <- !app_assoc. reflexivity.
Qed.

Lemma run_preprocessing_records g question h ev :
  In ev (run_preprocessing g question h).1 ->
  exists e,
    call_invoke (preprocessing_chain g) (chain_input question h) = Raise e
    /\ ev = Log WARNING 115
              (lit "Preprocessing failed: " ++ exn_text e ++ lit ", using fallback").
Proof.
  unfold run_preprocessing.
  destruct (call_invoke _ _) as [v|e]; cbn [fst In]; [done|].
  intros [<-|[]]. by exists e.
Qed.

(** The handler's own events in a run that gets past the guard. *)
Lemma handler_events_of_run g request pre qa :
  preprocessing_chain g = Some pre -> qa_chain g = Some qa ->
  handler_events (rag_query g request).1
  = Submit RunPreprocessing (question request) (history request)
    :: Submit RunRagPipeline (question request) (history request)
    :: Gather
    :: match (merge_results request
                (run_preprocessing g (question request) (history request)).2
                (invoke qa (chain_input (question request) (history request)))).2 with
       | inl (RaisedOther e) =>
           [Log ERROR 197 (lit "Unexpected error in RAG pipeline: " ++ exn_text e)]
       | _ => []
       end.
Proof.
  intros Hpre Hqa. rewrite (rag_query_trace g request pre qa Hpre Hqa).
  unfold handler_events. cbn [List.filter is_worker_record negb].
  rewrite List.filter_app.
  assert (Hworker : List.filter (fun ev => negb (is_worker_record ev))
                      (run_preprocessing g (question request) (history request)).1 = []).
  { unfold run_preprocessing. by destruct (call_invoke _ _). }
  rewrite Hworker. cbn [app List.filter is_worker_record negb].
  by destruct (merge_results _ _ _).2 as [[h|e]|response].
Qed.

(** Once both chains are in place, the handler hands both workers to the
    executor, in this order, and then joins them. *)
Lemma submissions_precede_join g request pre qa :
  preprocessing_chain g = Some pre -> qa_chain g = Some qa ->
  exists after,
    handler_events (rag_query g request).1
    = Submit RunPreprocessing (question request) (history request)
      :: Submit RunRagPipeline (question request) (history request)
      :: Gather :: after.
Proof.
  intros Hpre Hqa. rewrite (handler_events_of_run g request pre qa Hpre Hqa).
  by eexists.
Qed.

(** X7. The handler itself logs nothing when the answer chain raises: with
    preprocessing that raised or returned a dict, the handler's own events
    are the two submissions and the join, and the only log record of the run
    is the fallback warning that [run_preprocessing] writes when
    preprocessing raised.  The failure only shows in the HTTPException. *)
Theorem answer_failure_is_not_logged g request pre qa e :
  preprocessing_chain g = Some pre -> qa_chain g = Some qa ->
  invoke qa (chain_input (question request) (history request)) = Raise e ->
  (forall w, invoke pre (chain_input (question request) (history request)) = Return w ->
             is_dict w = true) ->
  handler_events (rag_query g request).1
  = [Submit RunPreprocessing (question request) (history request);
     Submit RunRagPipeline (question request) (history request);
     Gather]
  /\ forall lvl line msg,
       In (Log lvl line msg) (rag_query g request).1 ->
       exists e',
         invoke pre (chain_input (question request) (history request)) = Raise e'
         /\ Log lvl line msg
            = Log WARNING 115
                (lit "Preprocessing failed: " ++ exn_text e' ++ lit ", using fallback").
Proof.
  intros Hpre Hqa HB HA.
  assert (Hmerge : (merge_results request
            (run_preprocessing g (question request) (history request)).2
            (invoke qa (chain_input (question request) (history request)))).2
          = inl (RaisedHTTP (HTTPError 500 (lit "RAG pipeline failed: " ++ exn_text e)))).
  { rewrite merge_results_snd, run_preprocessing_result, Hpre, HB. cbn [call_invoke].
    destruct (invoke pre _) as [w|e'].
    - specialize (HA w eq_refl). by destruct w.
    - by rewrite read_fallback. }
  split.
  - by rewrite (handler_events_of_run g request pre qa Hpre Hqa), Hmerge.
  - intros lvl line msg.
    rewrite (rag_query_trace g request pre qa Hpre Hqa), Hmerge.
    cbn [In]. intros [[=]|[[=]|Hin]].
    apply in_app_iff in Hin as [Hin|[[=]|[]]].
    apply run_preprocessing_records in Hin as (e' & He' & ->).
    rewrite Hpre in He'. cbn [call_invoke] in He'. by exists e'.
Qed.

Lemma error_detail_not_guard x :
  lit "Error during RAG pipeline: " ++ x <> lit "RAG pipeline not initialized.".
Proof. intros H. vm_compute in H. discriminate. Qed.

Lemma error_detail_not_failed x y :
  lit "Error during RAG pipeline: " ++ x <> lit "RAG pipeline failed: " ++ y.
Proof. intros H. vm_compute in H. discriminate. Qed.

(** X8. The handler writes a record at ERROR level exactly when it fails
    with "Error during RAG pipeline: ...", and the record carries the text of
    the same exception; a missing chain and a failing answer chain leave no
    such record. *)
Theorem error_record_iff_unexpected g request :
  (forall lvl line msg,
     In (Log lvl line msg) (rag_query g request).1 -> lvl = ERROR ->
     exists e,
       line = 197
       /\ msg = lit "Unexpected error in RAG pipeline: " ++ exn_text e
       /\ (rag_query g request).2
          = inl (HTTPError 500 (lit "Error during RAG pipeline: " ++ exn_text e)))
  /\ (forall e,
        (rag_query g request).2
        = inl (HTTPError 500 (lit "Error during RAG pipeline: " ++ exn_text e)) ->
        exists e',
          exn_text e' = exn_text e
          /\ In (Log ERROR 197 (lit "Unexpected error in RAG pipeline: " ++ exn_text e'))
                (rag_query g request).1).
Proof.
  destruct (qa_chain g) as [qa|] eqn:Hqa; cycle 1.
  { unfold rag_query. rewrite Hqa. cbn. split; [by intros lvl line msg []|].
    intros e H. exfalso. apply (error_detail_not_guard (exn_text e)). congruence. }
  destruct (preprocessing_chain g) as [pre|] eqn:Hpre; cycle 1.
  { unfold rag_query. rewrite Hqa, Hpre. cbn. split; [by intros lvl line msg []|].
    intros e H. exfalso. apply (error_detail_not_guard (exn_text e)). congruence. }
  rewrite (rag_query_trace g request pre qa Hpre Hqa).
  rewrite (rag_query_result g request pre qa Hpre Hqa), except_clauses_snd.
  assert (Hworker : forall lvl line msg,
    In (Log lvl line msg) (run_preprocessing g (question request) (history request)).1 ->
    lvl = WARNING).
  { unfold run_preprocessing. destruct (call_invoke _ _); cbn; [done|].
    by intros lvl line msg [[= <- _ _]|[]]. }
  destruct (merge_results _ _ _).2 as [x|response] eqn:Hmerge.
  - apply merge_results_raised in Hmerge as [[e0 ->]|(e0 & _ & ->)].
    + split.
      * intros lvl line msg Hin Hlvl. cbn [In] in Hin.
        destruct Hin as [[=]|[[=]|Hin]].
        apply in_app_iff in Hin as [Hin|[[=]|[[= <- <- <-]|[]]]].
        -- apply Hworker in Hin. congruence.
        -- by exists e0.
      * intros e H. exists e0.
        assert (Htext : lit "Error during RAG pipeline: " ++ exn_text e0
                        = lit "Error during RAG pipeline: " ++ exn_text e) by congruence.
        apply app_inv_head in Htext. split; [done|].
        right. right. apply in_app_iff. right. right. by left.
    + split.
      * intros lvl line msg Hin Hlvl. cbn [In] in Hin.
        destruct Hin as [[=]|[[=]|Hin]].
        apply in_app_iff in Hin as [Hin|[[=]|[]]].
        apply Hworker in Hin. congruence.
      * intros e H. exfalso.
        apply (error_detail_not_failed (exn_text e) (exn_text e0)). congruence.
  - split; [|discriminate].
    intros lvl line msg Hin Hlvl. cbn [In] in Hin.
    destruct Hin as [[=]|[[=]|Hin]].
    apply in_app_iff in Hin as [Hin|[[=]|[]]].
    apply Hworker in Hin. congruence.
Qed.

(** X9. On its own thread, every run of the handler that gets past the guard
    does the same, also when it ends in an error: it submits
    [run_preprocessing], then [run_rag_pipeline], both with the question and
    the history of the request, joins them once, and after that at most
    writes the error record of line 197.  It submits nothing else and never
    skips the join. *)
Theorem two_submissions_one_join g request pre qa :
  preprocessing_chain g = Some pre -> qa_chain g = Some qa ->
  exists after,
    handler_events (rag_query g request).1
    = Submit RunPreprocessing (question request) (history request)
      :: Submit RunRagPipeline (question request) (history request)
      :: Gather :: after
    /\ Forall (fun ev => exists msg, ev = Log ERROR 197 msg) after.
Proof.
  intros Hpre Hqa. rewrite (handler_events_of_run g request pre qa Hpre Hqa).
  eexists. split; [reflexivity|].
  destruct (merge_results _ _ _).2 as [[h|e]|response]; try done.
  apply Forall_singleton. by eexists.
Qed.


(** ** More on the start-up *)

Lemma run_steps_app_failed b done todo g :
  failure (run_steps b done g) <> None ->
  run_steps b (done ++ todo) g = run_steps b done g.
Proof.
  revert g. induction done as [|s done IH]; intros g; cbn [run_steps app failure];
    [done|].
  destruct (run_step b s g) as [g' [e|]]; cbn [failure]; [done|].
  intros Hfail. by rewrite (IH g' Hfail).
Qed.

(** A failed run stopped at its failing step, after the steps before it. *)
Lemma run_steps_failure_split b steps g s e :
  failure (run_steps b steps g) = Some (s, e) ->
  exists done todo,
    steps = done ++ s :: todo
    /\ failure (run_steps b done g) = None
    /\ run_step b s (final (run_steps b done g)) = (final (run_steps b steps g), Some e).
Proof.
  revert g. induction steps as [|s0 steps IH]; intros g; cbn [run_steps failure];
    [discriminate|].
  destruct (run_step b s0 g) as [g' [e0|]] eqn:Hstep; cbn [failure final].
  - intros [= <- <-]. by exists [], steps.
  - intros Hfail. apply IH in Hfail as (done & todo & -> & Hok & Hrun).
    exists (s0 :: done), todo. cbn [run_steps app]. by rewrite Hstep.
Qed.

Lemma run_step_failed_absent b s g e :
  (run_step b s g).2 = Some e -> assigned s g = false ->
  assigned s (run_step b s g).1 = false.
Proof.
  unfold run_step. destruct (call_builder b s g) as [g'|e']; [|done].
  cbn [fst snd]. destruct (null_check s); [|discriminate].
  by destruct (assigned s g').
Qed.

Lemma fully_initialized_assigned g :
  fully_initialized g = true <-> forall s, assigned s g = true.
Proof.
  unfold fully_initialized. split.
  - intros H s. repeat (apply andb_prop in H as [H ?]). by destruct s.
  - intros H.
    pose proof (H StepEmbeddings). pose proof (H StepWeaviate). pose proof (H StepLLM).
    pose proof (H StepReranker). pose proof (H StepRetriever). pose proof (H StepQAChain).
    pose proof (H StepPreprocessingChain). cbn [assigned] in *.
    by repeat (apply andb_true_intro; split).
Qed.

Lemma initial_unassigned s : assigned s (set_executor (Some 4) initial_globals) = false.
Proof. by destruct s. Qed.

(** X10. Without an API key in the environment (unset or empty), or without
    [get_google_llm] in [rag_components], the loader of the LLM is not called
    and the start-up never reaches its [yield]; when the embedding model and
    Weaviate load, it stops at the LLM step with "Failed to load LLM. Please
    set GOOGLE_API_KEY.". *)
Theorem no_api_key_never_serves b :
  has_get_google_llm b && key_set (GOOGLE_API_KEY b) = false ->
  serving (lifespan b) = false
  /\ (failure (run_steps b [StepEmbeddings; StepWeaviate]
                 (set_executor (Some 4) initial_globals)) = None ->
      failure (lifespan b)
      = Some (StepLLM, RuntimeError (lit "Failed to load LLM. Please set GOOGLE_API_KEY."))).
Proof.
  intros Hkey.
  set (done := [StepEmbeddings; StepWeaviate]).
  set (todo := [StepReranker; StepRetriever; StepQAChain; StepPreprocessingChain]).
  assert (Hsplit : build_order = done ++ StepLLM :: todo) by reflexivity.
  destruct (failure (run_steps b done (set_executor (Some 4) initial_globals)))
    as [[s e]|] eqn:Hdone.
  - split; [|discriminate].
    unfold serving, lifespan. cbn [failure].
    rewrite Hsplit, run_steps_app_failed, Hdone; [done|by rewrite Hdone].
  - assert (Hstop : (run_step b StepLLM (final (run_steps b done
                       (set_executor (Some 4) initial_globals)))).2
                    = Some (RuntimeError (lit "Failed to load LLM. Please set GOOGLE_API_KEY."))).
    { set (gd := final (run_steps b done (set_executor (Some 4) initial_globals))).
      assert (Hcall : call_builder b StepLLM gd = Return gd)
        by (cbn [call_builder]; by rewrite Hkey).
      assert (Habsent : assigned StepLLM gd = false)
        by (unfold gd; by rewrite run_steps_frame by solve_elem).
      by rewrite (run_step_empty b StepLLM gd gd _ Hcall Habsent eq_refl). }
    destruct (lifespan_stops b done StepLLM todo _ Hsplit Hdone Hstop) as (Hfail & Hserving & _).
    split; [exact Hserving|]. intros _. exact Hfail.
Qed.

(** X11. At the end of the start-up the registry is fully initialized
    exactly when the [yield] was reached and the answer chain is not
    [None]. *)
Theorem fully_initialized_iff_serving b :
  fully_initialized (final (lifespan b)) = true
  <-> serving (lifespan b) = true /\ present (qa_chain (final (lifespan b))) = true.
Proof.
  unfold lifespan, serving. cbn [failure final]. split.
  - intros Hfull. split; [|by apply fully_initialized_assigned with (s := StepQAChain) in Hfull].
    destruct (failure (run_steps b build_order _)) as [[s e]|] eqn:Hfail; [|done].
    exfalso.
    apply run_steps_failure_split in Hfail as (done & todo & Hsplit & Hok & Hrun).
    apply fully_initialized_assigned with (s := s) in Hfull.
    pose proof build_order_NoDup as Hnd. rewrite Hsplit in Hnd.
    apply NoDup_app in Hnd as (_ & Hdisj & _).
    pose proof (run_step_failed_absent b s
                  (final (run_steps b done (set_executor (Some 4) initial_globals))) e)
      as Habsent.
    rewrite Hrun in Habsent. cbn [fst snd] in Habsent.
    rewrite Habsent in Hfull; [discriminate|done|].
    rewrite run_steps_frame; [apply initial_unassigned|].
    intros Hin. apply (Hdisj s Hin). by left.
  - intros [Hserving Hqa].
    destruct (failure (run_steps b build_order _)) eqn:Hfail; [discriminate|].
    apply fully_initialized_assigned. intros s.
    destruct (decide (s = StepQAChain)) as [->|Hs]; [exact Hqa|].
    apply run_steps_assigned; auto using build_order_NoDup, build_order_complete.
Qed.



(** ** The shutdown half *)

Lemma run_step_executor b s g : executor (run_step b s g).1 = executor g.
Proof.
  unfold run_step. destruct (call_builder b s g) as [g'|e] eqn:Hcall; [|done].
  cbn [fst]. destruct s; cbn [call_builder] in Hcall;
    repeat match type of Hcall with
           | context [if ?c then _ else _] => destruct c
           | context [assign ?o _ _] => destruct o; cbn [assign] in Hcall
           end;
    by simplify_eq.
Qed.

Lemma run_steps_executor b steps g :
  executor (final (run_steps b steps g)) = executor g.
Proof.
  revert g. induction steps as [|s steps IH]; intros g; cbn [run_steps final]; [done|].
  pose proof (run_step_executor b s g) as Hstep.
  destruct (run_step b s g) as [g' [e|]]; cbn [final fst] in *; [done|].
  by rewrite IH.
Qed.

(** X14. [lifespan] always creates the pool of four workers.  When the
    start-up reaches its [yield], the run ends with the shutdown of the pool,
    once and with [wait=True], between the two shutdown lines of the log.
    When a step fails, the [yield] is not reached and the pool that was
    created is never shut down. *)
Theorem executor_shutdown_iff_serving b :
  (exists before after,
     lifespan_actions b
     = Recorded (Log INFO 39 (lit "Starting RAG API initialization..."))
       :: CreateExecutor 4 :: before ++ after
     /\ Forall (fun a => exists ev, a = Recorded ev) before
     /\ (serving (lifespan b) = true ->
         after = [Yield;
                  Recorded (Log INFO 89 (lit "Shutting down executor..."));
                  ShutdownExecutor true;
                  Recorded (Log INFO 92 (lit "Shutdown complete."))])
     /\ (serving (lifespan b) = false -> after = [])).
Proof.
  unfold lifespan_actions, lifespan, serving. cbn [failure].
  destruct (failure (run_steps b build_order _)) eqn:Hfail.
  - eexists _, []. split; [by rewrite !app_nil_r|]. split; [|done].
    apply Forall_fmap, Forall_true. intros ev. by exists ev.
  - eexists (_ ++ [_]), _. split; [by rewrite <- app_assoc|].
    split; [|split; [|discriminate]].
    + apply Forall_app. split.
      * apply Forall_fmap, Forall_true. intros ev. by exists ev.
      * apply Forall_singleton. by eexists.
    + intros _. unfold lifespan_shutdown. by rewrite run_steps_executor.
Qed.


(** ** Queries after the start-up *)

(** X15. After a start-up that reached its [yield], what a query meets
    depends on the answer chain alone.  When [qa_chain] holds a truthy
    object, every query gets past the guard: the handler submits both
    workers and joins them.  When [create_qa_chain] returned [None] or an
    empty object, every query is answered with status 500 and "RAG pipeline
    not initialized.", and nothing is submitted. *)
Theorem query_after_startup b request :
  serving (lifespan b) = true ->
  (present (qa_chain (final (lifespan b))) = true ->
   exists after,
     handler_events (rag_query (final (lifespan b)) request).1
     = Submit RunPreprocessing (question request) (history request)
       :: Submit RunRagPipeline (question request) (history request)
       :: Gather :: after)
  /\ (qa_chain (final (lifespan b)) = None ->
      rag_query (final (lifespan b)) request
      = ([], inl (HTTPError 500 (lit "RAG pipeline not initialized.")))).
Proof.
  intros Hserving. split.
  - intros Hqa.
    assert (Hpre : assigned StepPreprocessingChain (final (lifespan b)) = true).
    { revert Hserving. unfold lifespan, serving. cbn [failure final].
      destruct (failure (run_steps b build_order _)) eqn:Hfail; [discriminate|].
      intros _.
      apply run_steps_assigned; auto using build_order_NoDup, build_order_complete. }
    cbn [assigned] in Hpre.
    destruct (preprocessing_chain (final (lifespan b))) as [pre|] eqn:Hpre';
      [|discriminate].
    destruct (qa_chain (final (lifespan b))) as [qa|] eqn:Hqa'; [|discriminate].
    by apply (submissions_precede_join _ request pre qa).
  - intros Hqa. unfold rag_query. by rewrite Hqa.
Qed.

(** ** The warm-up route *)

(** X16. A warm-up while the registry is not fully initialized does not
    fail: it returns the status "warmup completed with warnings" with the
    text of the HTTPException 500 "RAG pipeline not initialized." as its
    warning, logs that warning, and submits nothing to the executor. *)
Theorem warmup_before_initialization b g :
  In g (visited (lifespan b)) ->
  fully_initialized g = false ->
  warmup g
  = ([Log WARNING 222
        (lit "Warmup failed: "
         ++ http_text (HTTPError 500 (lit "RAG pipeline not initialized.")))],
     VDict [(lit "status", VStr (lit "warmup completed with warnings"));
            (lit "warning",
             VStr (http_text (HTTPError 500 (lit "RAG pipeline not initialized."))))]).
Proof.
  intros Hin Hfull. unfold warmup, rag_query.
  destruct (visited_chains b g Hin Hfull) as [-> | ->]; [done|].
  by rewrite orb_true_r.
Qed.

Lemma warmup_statuses_differ x :
  VDict [(lit "status", VStr (lit "warmup completed with warnings"));
         (lit "warning", x)]
  <> VDict [(lit "status", VStr (lit "warmed up successfully"))].
Proof. discriminate. Qed.

(** X17. The warm-up reports "warmed up successfully" exactly when both
    chains are in place and, called with the input "Luật giao thông" and an
    empty history, the answer chain returns an answer result and the
    preprocessing chain raises or returns a record that can be read.  A
    failing preprocessing chain alone does not spoil the warm-up. *)
Theorem warmup_succeeds_iff g :
  (warmup g).2 = VDict [(lit "status", VStr (lit "warmed up successfully"))]
  <->
  (exists pre qa v,
     preprocessing_chain g = Some pre /\ qa_chain g = Some qa
     /\ invoke qa (chain_input test_query []) = Return v
     /\ is_answer_result v = true
     /\ forall w, invoke pre (chain_input test_query []) = Return w ->
                  is_preprocessing_result w = true).
Proof.
  unfold warmup. split.
  - destruct (rag_query g test_request) as [evs [h|response]] eqn:Hrun.
    + cbn [snd]. intros H. by apply warmup_statuses_differ in H.
    + intros _.
      apply (rag_query_response_elim g test_request response).
      by rewrite Hrun.
  - intros (pre & qa & v & Hpre & Hqa & Hv & Hshape & HA).
    destruct (rag_query_response_intro g test_request pre qa v Hpre Hqa Hv Hshape HA)
      as [response Hresponse].
    destruct (rag_query g test_request) as [evs [h|response']]; [discriminate|done].
Qed.

End Interpreter.

(** ** Strings that occur in other strings *)

Lemma occurs_in_unfold (needle hay : str) :
  occurs_in needle hay =
  bool_decide (needle `prefix_of` hay)
  || match hay with [] => false | _ :: hay' => occurs_in needle hay' end.
Proof. by destruct hay. Qed.

Lemma occurs_in_spec (needle hay : str) :
  (exists before after, hay = before ++ needle ++ after) -> occurs_in needle hay = true.
Proof.
  intros (before & after & ->).
  induction before as [|c before IH]; cbn [app].
  - rewrite occurs_in_unfold, bool_decide_eq_true_2; [done|]. by exists after.
  - cbn [occurs_in]. rewrite IH. apply orb_true_r.
Qed.

(** * Instances on the sample inputs *)

(** Preprocessing raises, the answer chain returns the sample record. *)
Lemma preprocessing_failure_masked_witness :
  exists a s,
    (rag_query Sample.repr Sample.validation
       (Sample.globals (Raise Sample.boom) (Return Sample.answered))
       Sample.request).2
    = inr {| classification := VStr (lit "unknown");
             rewritten_question := VStr (question Sample.request);
             answer := a; sources := s |}.
Proof.
  destruct (preprocessing_failure_masked Sample.repr Sample.validation
              (Sample.globals (Raise Sample.boom) (Return Sample.answered))
              Sample.request
              (Sample.chain (Raise Sample.boom)) (Sample.chain (Return Sample.answered))
              Sample.boom Sample.answered
              eq_refl eq_refl eq_refl eq_refl) as [Hresponse _].
  apply Hresponse. vm_compute. reflexivity.
Defined.

(** Preprocessing returns a record, the answer chain raises. *)
Lemma answer_failure_is_fatal_witness :
  (rag_query Sample.repr Sample.validation
     (Sample.globals (Return Sample.classified) (Raise Sample.boom))
     Sample.request).2
  = inl (HTTPError 500 (lit "RAG pipeline failed: " ++ lit "boom")).
Proof.
  destruct (answer_failure_is_fatal Sample.repr Sample.validation
              (Sample.globals (Return Sample.classified) (Raise Sample.boom))
              Sample.request
              (Sample.chain (Return Sample.classified)) (Sample.chain (Raise Sample.boom))
              Sample.boom eq_refl eq_refl eq_refl) as (_ & Hdetail & _).
  apply Hdetail. intros v Hv. injection Hv as <-. reflexivity.
Defined.

(** C2 says that a request whose answer chain fails gets a pipeline error
    that carries the underlying failure; the code misses it on this input.
    The preprocessing chain returns a JSON array and the answer chain raises
    "boom".  [gather] returns the array and the exception; the test of
    line 167 is false for the array, and line 172 calls [.get] on it with no
    dict test (lines 178-183 have one for the other result), so an
    AttributeError is raised before line 175 is reached; the clause of
    line 196 logs it as unexpected and turns it into the HTTPException.  The
    handler fails with status 500, but "boom" occurs nowhere in the
    detail. *)
Lemma pipeline_error_detail_lost :
  invoke (Sample.chain (Raise Sample.boom)) Sample.input = Raise Sample.boom
  /\ (rag_query Sample.repr Sample.validation
        (Sample.globals (Return (VList [VStr (lit "a")])) (Raise Sample.boom))
        Sample.request).2
     = inl (HTTPError 500
              (lit "Error during RAG pipeline: 'list' object has no attribute 'get'"))
  /\ ~ exists before after,
         lit "Error during RAG pipeline: 'list' object has no attribute 'get'"
         = before ++ exn_text Sample.validation Sample.boom ++ after.
Proof.
  split; [reflexivity|]. split; [by vm_compute|].
  intros H. apply occurs_in_spec in H. vm_compute in H. discriminate.
Qed.

(** The start-up without an API key stops at the LLM step. *)
Lemma lifespan_fails_fast_witness :
  failure (lifespan Sample.builders_without_key)
  = Some (StepLLM, RuntimeError (lit "Failed to load LLM. Please set GOOGLE_API_KEY.")).
Proof.
  destruct (lifespan_fails_fast Sample.builders_without_key
              [StepEmbeddings; StepWeaviate] StepLLM
              [StepReranker; StepRetriever; StepQAChain; StepPreprocessingChain]
              eq_refl eq_refl) as (_ & Hempty & _).
  destruct (Hempty _ _ eq_refl eq_refl eq_refl) as [Hfailure _].
  exact Hfailure.
Defined.

(** C5 fails as stated.  [create_qa_chain] returns [None] and every other
    builder succeeds.  Line 74 assigns [None] to [qa_chain], no test follows
    it, line 83 builds the preprocessing chain and line 86 yields: the
    application serves with [qa_chain] still [None]. *)
Lemma unchecked_answer_chain :
  create_qa_chain (Sample.builders (Return None))
    (Some (Handle 3)) (Some (Handle 5)) (Some (Handle 3)) = Return None
  /\ serving (lifespan (Sample.builders (Return None))) = true
  /\ failure (lifespan (Sample.builders (Return None))) = None
  /\ qa_chain (final (lifespan (Sample.builders (Return None)))) = None
  /\ fully_initialized (final (lifespan (Sample.builders (Return None)))) = false.
Proof. repeat split; reflexivity. Qed.

(** Both chains return their sample records. *)
Lemma response_fields_are_strings_witness :
  (rag_query Sample.repr Sample.validation
     (Sample.globals (Return Sample.classified) (Return Sample.answered))
     Sample.request).2 = inr Sample.response
  /\ exists c r a,
       classification Sample.response = VStr c
       /\ rewritten_question Sample.response = VStr r
       /\ answer Sample.response = VStr a.
Proof.
  assert (H : (rag_query Sample.repr Sample.validation
                 (Sample.globals (Return Sample.classified) (Return Sample.answered))
                 Sample.request).2 = inr Sample.response) by (by vm_compute).
  split; [exact H|].
  destruct (response_fields_are_strings Sample.repr Sample.validation _ _ _ H)
    as [Hstrings _].
  exact Hstrings.
Defined.

(** C6 fails as stated.  The request is valid and the answer chain succeeds
    with an empty "answer".  Line 179 reads the empty string, line 180 finds
    no context, and the constructor of line 187 accepts the empty string for
    [answer: str]: the handler returns a response whose answer is empty. *)
Lemma empty_answer_returned :
  question Sample.request <> []
  /\ invoke (Sample.chain (Return (VDict [(lit "answer", VStr [])]))) Sample.input
     = Return (VDict [(lit "answer", VStr [])])
  /\ (rag_query Sample.repr Sample.validation
        (Sample.globals (Return Sample.classified)
           (Return (VDict [(lit "answer", VStr [])])))
        Sample.request).2
     = inr {| classification := VStr (lit "traffic_law");
              rewritten_question := VStr (lit "What is the speed limit for urban roads?");
              answer := VStr [];
              sources := VNone |}.
Proof. split; [discriminate|]. split; [reflexivity|]. by vm_compute. Qed.

(** A request that arrives before the start-up has done anything. *)
Lemma query_before_initialization_witness :
  rag_query Sample.repr Sample.validation initial_globals Sample.request
  = ([], inl (HTTPError 500 (lit "RAG pipeline not initialized."))).
Proof.
  destruct (query_before_initialization Sample.repr Sample.validation
              (Sample.builders (Return None)) initial_globals Sample.request)
    as [Hguard _]; [by left|reflexivity|].
  exact Hguard.
Defined.

(** The answer chain returns plain text. *)
Lemma free_text_answer_witness :
  exists c r,
    (rag_query Sample.repr Sample.validation
       (Sample.globals (Return Sample.classified) (Return (VStr (lit "50 km/h"))))
       Sample.request).2
    = inr {| classification := c; rewritten_question := r;
             answer := VStr (lit "50 km/h"); sources := VNone |}.
Proof.
  destruct (free_text_answer Sample.repr Sample.validation
              (Sample.globals (Return Sample.classified) (Return (VStr (lit "50 km/h"))))
              Sample.request
              (Sample.chain (Return Sample.classified))
              (Sample.chain (Return (VStr (lit "50 km/h"))))
              (VStr (lit "50 km/h")) eq_refl eq_refl eq_refl eq_refl) as [_ Hresponse].
  apply Hresponse. intros w Hw. injection Hw as <-. by vm_compute.
Defined.

(** The preprocessing chain raises. *)
Lemma run_preprocessing_total_witness :
  (run_preprocessing Sample.validation
     (Sample.globals (Raise Sample.boom) (Return Sample.answered))
     (question Sample.request) []).2
  = Return (fallback (question Sample.request)).
Proof.
  destruct (run_preprocessing_total Sample.repr Sample.validation
              (Sample.globals (Raise Sample.boom) (Return Sample.answered))
              (question Sample.request) []) as (_ & Hfallback & _).
  exact (Hfallback Sample.boom eq_refl).
Defined.

(** The scenario of the specification: a document of 210 characters with
    source "doc1" comes back as its first 200 characters and "...". *)
Lemma scenario_speed_limit :
  (rag_query Sample.repr Sample.validation
     (Sample.globals (Return Sample.classified) (Return Sample.answered))
     Sample.request).2
  = inr Sample.response.
Proof. by vm_compute. Qed.

(** * Instances of the further properties *)

(** The long sample document comes back as 203 characters. *)
Lemma preview_verbatim_or_203_witness :
  exists out source preview,
    format_sources_optimized (VList (document <$> Sample.docs)) = Return (VList out)
    /\ out !! 0 = Some (VDict [(lit "source", source); (lit "preview", VStr preview)])
    /\ length preview = 203.
Proof.
  destruct (format_sources_optimized (VList (document <$> Sample.docs)))
    as [[| |out| |]|e] eqn:Hrun; try (by vm_compute in Hrun).
  destruct (preview_verbatim_or_203 Sample.docs out Hrun 0 Sample.long_content
              [(lit "source", VStr (lit "doc1"))] eq_refl)
    as (source & preview & Hentry & _ & Hlong).
  exists out, source, preview. split; [reflexivity|]. split; [exact Hentry|].
  apply Hlong. vm_compute. lia.
Defined.

(** A plain string after one document. *)
Lemma format_sources_rejects_non_document_witness :
  is_document (VStr (lit "plain text")) = false
  /\ format_sources_optimized
       (VList [VDocument Sample.long_content []; VStr (lit "plain text")])
     = Raise (AttributeError (lit "str") (lit "page_content")).
Proof.
  split; [reflexivity|].
  exact (format_sources_rejects_non_document [(Sample.long_content, [])]
           (VStr (lit "plain text")) [] eq_refl).
Defined.

(** The answer chain raises "boom". *)
Lemma rag_query_error_forms_witness :
  (rag_query Sample.repr Sample.validation
     (Sample.globals (Return Sample.classified) (Raise Sample.boom))
     Sample.request).2
  = inl (HTTPError 500 (lit "RAG pipeline failed: " ++ lit "boom"))
  /\ exists detail,
       HTTPError 500 (lit "RAG pipeline failed: " ++ lit "boom") = HTTPError 500 detail.
Proof.
  assert (H : (rag_query Sample.repr Sample.validation
                 (Sample.globals (Return Sample.classified) (Raise Sample.boom))
                 Sample.request).2
              = inl (HTTPError 500 (lit "RAG pipeline failed: " ++ lit "boom")))
    by (by vm_compute).
  split; [exact H|].
  destruct (rag_query_error_forms Sample.repr Sample.validation _ _ _ H)
    as (detail & Hdetail & _).
  by exists detail.
Defined.

(** The sources of the sample response. *)
Lemma response_sources_shape_witness :
  sources Sample.response = VNone
  \/ exists entries,
       sources Sample.response = VList entries
       /\ entries <> []
       /\ Forall is_source_entry entries.
Proof.
  apply (response_sources_shape Sample.repr Sample.validation
           (Sample.globals (Return Sample.classified) (Return Sample.answered))
           Sample.request Sample.response).
  by vm_compute.
Defined.

(** An empty record from preprocessing against a preprocessing that raises. *)
Lemma preprocessing_without_keys_is_fallback_witness :
  (rag_query Sample.repr Sample.validation
     (Sample.globals (Return (VDict [])) (Return Sample.answered)) Sample.request).2
  = (rag_query Sample.repr Sample.validation
       (Sample.globals (Raise Sample.boom) (Return Sample.answered)) Sample.request).2.
Proof.
  exact (preprocessing_without_keys_is_fallback Sample.repr Sample.validation
           (Sample.globals (Return (VDict [])) (Return Sample.answered))
           (Sample.globals (Raise Sample.boom) (Return Sample.answered))
           Sample.request
           (Sample.chain (Return (VDict []))) (Sample.chain (Raise Sample.boom))
           (Sample.chain (Return Sample.answered)) [] Sample.boom
           eq_refl eq_refl eq_refl eq_refl eq_refl eq_refl eq_refl eq_refl).
Defined.

(** Both chains raise "boom". *)
Lemma answer_failure_is_not_logged_witness :
  handler_events
    (rag_query Sample.repr Sample.validation
       (Sample.globals (Raise Sample.boom) (Raise Sample.boom)) Sample.request).1
  = [Submit RunPreprocessing (question Sample.request) (history Sample.request);
     Submit RunRagPipeline (question Sample.request) (history Sample.request);
     Gather].
Proof.
  destruct (answer_failure_is_not_logged Sample.repr Sample.validation
              (Sample.globals (Raise Sample.boom) (Raise Sample.boom)) Sample.request
              (Sample.chain (Raise Sample.boom)) (Sample.chain (Raise Sample.boom))
              Sample.boom eq_refl eq_refl eq_refl) as [Hhandler _].
  - intros w Hw. discriminate Hw.
  - exact Hhandler.
Defined.

(** The sample run with both chains succeeding. *)
Lemma two_submissions_one_join_witness :
  exists after,
    handler_events
      (rag_query Sample.repr Sample.validation
         (Sample.globals (Return Sample.classified) (Return Sample.answered))
         Sample.request).1
    = Submit RunPreprocessing (question Sample.request) (history Sample.request)
      :: Submit RunRagPipeline (question Sample.request) (history Sample.request)
      :: Gather :: after.
Proof.
  destruct (two_submissions_one_join Sample.repr Sample.validation
              (Sample.globals (Return Sample.classified) (Return Sample.answered))
              Sample.request
              (Sample.chain (Return Sample.classified))
              (Sample.chain (Return Sample.answered)) eq_refl eq_refl)
    as (after & Htrace & _).
  by exists after.
Defined.

(** The sample builders without an API key. *)
Lemma no_api_key_never_serves_witness :
  serving (lifespan Sample.builders_without_key) = false.
Proof.
  destruct (no_api_key_never_serves Sample.builders_without_key eq_refl) as [Hserving _].
  exact Hserving.
Defined.


(** The sample builders with an answer chain. *)
Lemma query_after_startup_witness :
  exists after,
    handler_events
      (rag_query Sample.repr Sample.validation
         (final (lifespan (Sample.builders
                             (Return (Some (Sample.chain (Return Sample.answered)))))))
         Sample.request).1
    = Submit RunPreprocessing (question Sample.request) (history Sample.request)
      :: Submit RunRagPipeline (question Sample.request) (history Sample.request)
      :: Gather :: after.
Proof.
  destruct (query_after_startup Sample.repr Sample.validation
              (Sample.builders (Return (Some (Sample.chain (Return Sample.answered)))))
              Sample.request eq_refl) as [Hpast _].
  exact (Hpast eq_refl).
Defined.

(** A warm-up before the start-up has done anything. *)
Lemma warmup_before_initialization_witness :
  (warmup Sample.repr Sample.validation (fun _ => lit "<http error>") initial_globals).2
  = VDict [(lit "status", VStr (lit "warmup completed with warnings"));
           (lit "warning", VStr (lit "<http error>"))].
Proof.
  rewrite (warmup_before_initialization Sample.repr Sample.validation
             (fun _ => lit "<http error>") (Sample.builders (Return None)) initial_globals);
    [reflexivity|by left|reflexivity].
Defined.
